(** * Lexicon: trie-backed dictionary, profanity filter and prefix challenges

    A shallow embedding of [src/lexicon.cpp], [src/lexicon.h] and of the three
    word-list loaders of [src/AssetManager.cpp], followed by the properties
    of the prefix tree and of the lexicon service; and of the undo and redo
    history of [src/UndoSystem.h] with its properties.

    Conventions of the embedding.
    - [std::string] is [string]; a [char] is an [ascii].
    - [std::unordered_map<char, TrieNode*>] is [gmap ascii TrieNode]; every
      node is created by [new] at the one place that links it to its parent,
      so the pointer graph is a tree and is modelled as one.
    - [std::unordered_set<std::string>] is [gset string]; its iteration order
      is [elements], one fixed enumeration without repetition.
    - [int] is [Z]. The one [int] that is incremented, the match counter
      of [CheckPrefixHasMinimumWords], stays within the range of [int], as
      is proved of [count_peak] below.
    - What the functions print on [std::cout] is left out; what
      [GetInstance] and [getRandomPrefix] print on [std::cerr] is returned
      with their result.
    - [rand()] reads the next value of a finite supply of draws that is
      threaded through the calls; a run that asks for more draws than were
      supplied has not returned yet.
    - [std::isspace] and [::tolower] are those of the C locale. *)

From Stdlib Require Import ZArith Ascii String List Lia Bool.
From stdpp Require Import gmap strings list fin_maps fin_sets.

Set Warnings "-register-all,-clear-no-such-hyp".

Local Open Scope string_scope.

(** ** Characters and strings *)

Module Chars.

(** [std::isspace] in the C locale: space, \t, \n, \v, \f, \r. *)
Definition isspace (c : ascii) : bool :=
  let n := nat_of_ascii c in
  (n =? 32)%nat || ((9 <=? n)%nat && (n <=? 13)%nat).

(** [::tolower] in the C locale. *)
Definition tolower (c : ascii) : ascii :=
  let n := nat_of_ascii c in
  if (65 <=? n)%nat && (n <=? 90)%nat then ascii_of_nat (n + 32) else c.

(** [std::isalpha] in the C locale. *)
Definition isalpha (c : ascii) : bool :=
  let n := nat_of_ascii c in
  ((65 <=? n)%nat && (n <=? 90)%nat) || ((97 <=? n)%nat && (n <=? 122)%nat).

End Chars.

Module Str.

(** [std::find_if_not(s.begin(), s.end(), isspace)]: the suffix of [s] that
    starts at its first character that is not a space. *)
Fixpoint skip_spaces (s : string) : string :=
  match s with
  | EmptyString => EmptyString
  | String c s' => if Chars.isspace c then skip_spaces s' else s
  end.

(** Reversal, for the scan through [rbegin()/rend()]. *)
Fixpoint rev_onto (s acc : string) : string :=
  match s with
  | EmptyString => acc
  | String c s' => rev_onto s' (String c acc)
  end.

Definition rev (s : string) : string := rev_onto s EmptyString.

(** [std::transform(s.begin(), s.end(), s.begin(), ::tolower)]. *)
Fixpoint lower (s : string) : string :=
  match s with
  | EmptyString => EmptyString
  | String c s' => String (Chars.tolower c) (lower s')
  end.

(** The erase-remove of every double-quote character (code 34) that the
    loaders apply to each item. *)
Fixpoint erase_quotes (s : string) : string :=
  match s with
  | EmptyString => EmptyString
  | String c s' =>
      if (nat_of_ascii c =? 34)%nat then erase_quotes s'
      else String c (erase_quotes s')
  end.

(** [word.find(prefix)]: position of the first occurrence, [None] for
    [npos]. *)
Definition find (word prefix : string) : option nat := String.index 0 prefix word.

(** [word.substr(0, count)] with [count] converted from [int] to [size_t]:
    a negative [int] becomes a count beyond every length, and the whole word
    is returned. *)
Definition substr0 (word : string) (count : Z) : string :=
  if (count <? 0)%Z then word else String.substring 0 (Z.to_nat count) word.

End Str.

(** [Framework::trim]. *)
Definition trim (str : string) : string :=
  let start := Str.skip_spaces str in
  match start with
  | EmptyString => EmptyString
  | _ => Str.rev (Str.skip_spaces (Str.rev start))
  end.

(** ** The prefix tree *)

(** [class TrieNode]. *)
Inductive TrieNode : Type :=
  MkNode (children : gmap ascii TrieNode) (isEndOfWord : bool).

Definition children (n : TrieNode) : gmap ascii TrieNode :=
  match n with MkNode ch _ => ch end.

Definition isEndOfWord (n : TrieNode) : bool :=
  match n with MkNode _ e => e end.

(** [new TrieNode()]. *)
Definition new_node : TrieNode := MkNode ∅ false.

Module Node.

(** The walk of [Trie::insert] from [node] on. *)
Fixpoint insert (word : string) (node : TrieNode) : TrieNode :=
  match word with
  | EmptyString => MkNode (children node) true
  | String c rest =>
      let child :=
        match children node !! c with
        | None => new_node
        | Some n => n
        end in
      MkNode (<[c := insert rest child]> (children node)) (isEndOfWord node)
  end.

(** The walk of [Trie::search] from [node] on. *)
Fixpoint search (word : string) (node : TrieNode) : bool :=
  match word with
  | EmptyString => isEndOfWord node
  | String c rest =>
      match children node !! c with
      | None => false
      | Some n => search rest n
      end
  end.

(** The walk of [Trie::startsWith] from [node] on. *)
Fixpoint startsWith (prefix : string) (node : TrieNode) : bool :=
  match prefix with
  | EmptyString => true
  | String c rest =>
      match children node !! c with
      | None => false
      | Some n => startsWith rest n
      end
  end.

End Node.

(** [class Trie]. *)
Record Trie : Type := MkTrie {
  root : TrieNode;
  words : gset string
}.

Module TrieOps.

(** [Trie::Trie()]. *)
Definition new : Trie := MkTrie new_node ∅.

Definition insert (word : string) (t : Trie) : Trie :=
  MkTrie (Node.insert word (root t)) ({[ word ]} ∪ words t).

Definition search (word : string) (t : Trie) : bool := Node.search word (root t).

Definition startsWith (prefix : string) (t : Trie) : bool :=
  Node.startsWith prefix (root t).

Definition getAllWords (t : Trie) : gset string := words t.

(** The trie reached from a fresh one by inserting [ws] from left to
    right. *)
Definition inserted (ws : list string) : Trie :=
  fold_left (fun t w => insert w t) ws new.

End TrieOps.

(** ** The lexicon service *)

(** [class Lexicon]: the two tries it owns. *)
Record Lexicon : Type := MkLexicon {
  trie : Trie;
  nsfwTrie : Trie
}.

(** What a call that reads [rand()] comes to. *)
Inductive outcome (A : Type) : Type :=
  | Returned (a : A) (rest : list nat)
      (** the call returned [a]; [rest] are the draws it did not read *)
  | Starved
      (** the supply of draws ran out before the call returned *)
  | Undefined.
      (** the call executed an operation without defined behaviour *)

Arguments Returned {A} a rest.
Arguments Starved {A}.
Arguments Undefined {A}.

Module Lex.

(** [Lexicon::Lexicon(...)]: both tries default-constructed. *)
Definition make : Lexicon := MkLexicon TrieOps.new TrieOps.new.

Definition GetTrie (lex : Lexicon) : Trie := trie lex.
Definition GetNSFW (lex : Lexicon) : Trie := nsfwTrie lex.

(** The normalisation common to [checkUserWord] and [isNsfwWord]: [trim],
    then [::tolower] on every character. *)
Definition normalize (raw : string) : string := Str.lower (trim raw).

Definition checkUserWord (lex : Lexicon) (userWord : string) : bool :=
  let normalizedWord := normalize userWord in
  if TrieOps.search normalizedWord (trie lex) then true else false.

Definition isNsfwWord (lex : Lexicon) (word : string) : bool :=
  let normalizedWord := normalize word in
  TrieOps.search normalizedWord (nsfwTrie lex).

Fixpoint countLetters (word : string) : nat :=
  match word with
  | EmptyString => 0
  | String c rest =>
      if Chars.isalpha c then S (countLetters rest) else countLetters rest
  end.

(** The range-for of [CheckPrefixHasMinimumWords] over the words that are
    still to be visited, [count] being the matches found so far. *)
Fixpoint count_from (wordSet : list string) (prefix : string)
    (MinAmount count : Z) : bool :=
  match wordSet with
  | [] => false
  | word :: rest =>
      if decide (Str.find word prefix = Some 0%nat) then
        let count' := (count + 1)%Z in
        if (MinAmount <=? count')%Z then true
        else count_from rest prefix MinAmount count'
      else count_from rest prefix MinAmount count
  end.

(** The largest value [count] takes in that range-for. *)
Fixpoint count_peak (wordSet : list string) (prefix : string)
    (MinAmount count : Z) : Z :=
  match wordSet with
  | [] => count
  | word :: rest =>
      if decide (Str.find word prefix = Some 0%nat) then
        let count' := (count + 1)%Z in
        if (MinAmount <=? count')%Z then count'
        else count_peak rest prefix MinAmount count'
      else count_peak rest prefix MinAmount count
  end.

Definition CheckPrefixHasMinimumWords (lex : Lexicon) (prefix : string)
    (MinAmount : Z) : bool :=
  let wordSet := TrieOps.getAllWords (trie lex) in
  if decide (wordSet = ∅) then false
  else count_from (elements wordSet) prefix MinAmount 0.

(** The do-while of [GeneratePrefixFromRandomWord]. [randomPrefix] is the
    variable declared before the loop; [continue] in a do-while jumps to
    the loop condition, which is therefore evaluated on the value
    [randomPrefix] had when the iteration began. *)
Fixpoint generate_loop (lex : Lexicon) (length : Z) (Randomize : bool)
    (randomPrefix : string) (draws : list nat) : outcome string :=
  let wordSet := elements (TrieOps.getAllWords (trie lex)) in
  match draws with
  | [] => Starved
  | r1 :: draws1 =>
      match wordSet !! (r1 mod List.length wordSet)%nat with
      | None => Undefined
      | Some randomWord =>
          if (String.length randomWord <? 2)%nat then
            if CheckPrefixHasMinimumWords lex randomPrefix 20
            then Returned randomPrefix draws1
            else generate_loop lex length Randomize randomPrefix draws1
          else if Randomize then
            match draws1 with
            | [] => Starved
            | r2 :: draws2 =>
                if (length =? 0)%Z then Undefined
                else
                  let prefixLength := (Z.rem (Z.of_nat r2) length + 1)%Z in
                  let prefixLength :=
                    Z.min prefixLength (Z.of_nat (String.length randomWord)) in
                  let randomPrefix' := Str.substr0 randomWord prefixLength in
                  if CheckPrefixHasMinimumWords lex randomPrefix' 20
                  then Returned randomPrefix' draws2
                  else generate_loop lex length Randomize randomPrefix' draws2
            end
          else
            let prefixLength := length in
            let prefixLength :=
              Z.min prefixLength (Z.of_nat (String.length randomWord)) in
            let randomPrefix' := Str.substr0 randomWord prefixLength in
            if CheckPrefixHasMinimumWords lex randomPrefix' 20
            then Returned randomPrefix' draws1
            else generate_loop lex length Randomize randomPrefix' draws1
      end
  end.

Definition GeneratePrefixFromRandomWord (lex : Lexicon) (length : Z)
    (Randomize : bool) (draws : list nat) : outcome string :=
  let wordSet := TrieOps.getAllWords (trie lex) in
  if decide (wordSet = ∅) then Returned "" draws
  else generate_loop lex length Randomize "" draws.

(** [getRandomPrefix], over the list the global reference [prefixes] is
    bound to; the second component is what the call writes to
    [std::cerr]. *)
Definition getRandomPrefix (prefixes : list string) (draws : list nat)
    : outcome string * list string :=
  match prefixes with
  | [] => (Returned "" draws, ["Error: No prefixes loaded!"])
  | _ =>
      match draws with
      | [] => (Starved, [])
      | r :: rest =>
          let randomIndex := (r mod List.length prefixes)%nat in
          match prefixes !! randomIndex with
          | Some p => (Returned p rest, [])
          | None => (Undefined, [])
          end
      end
  end.

End Lex.

(** ** The asset manager's word lists and the singleton *)

(** The three word lists of [class AssetManager]. *)
Record AssetManager : Type := MkAssets {
  dictionaryWords : list string;
  prefixList : list string;
  nsfwList : list string
}.

(** The process-wide state: [Lexicon::instance] ([None] for [nullptr]) and
    [GlobalAssetManager]. *)
Record World : Type := MkWorld {
  instance : option Lexicon;
  assets : AssetManager
}.

(** What reading a file and cutting out the array under a key yields: the
    items between the commas, or [None] on each path on which the loader
    gives up (file not opened, key not found, brackets not found). *)
Definition Files : Type := string -> string -> option (list string).

Module Assets.

(** The body of the [getline] loop of [UE_LoadDictionary]. *)
Definition sanitize_word (word : string) : string :=
  Str.lower (trim (Str.erase_quotes word)).

(** The body of the [getline] loop of [UE_LoadPrefixes]. *)
Definition sanitize_prefix (item : string) : string :=
  trim (Str.erase_quotes item).

(** The body of the [getline] loop of [UE_LoadNSFW], which erases the
    leading and the trailing spaces in place. *)
Definition sanitize_nsfw (item : string) : string :=
  let item := Str.erase_quotes item in
  let item := Str.skip_spaces item in
  let item := Str.rev (Str.skip_spaces (Str.rev item)) in
  Str.lower item.

Definition is_empty (s : string) : bool :=
  match s with EmptyString => true | _ => false end.

Fixpoint load_words (items : list string) (dictionaryWords : list string)
    (t : Trie) : list string * Trie :=
  match items with
  | [] => (dictionaryWords, t)
  | item :: rest =>
      let word := sanitize_word item in
      if is_empty word then load_words rest dictionaryWords t
      else load_words rest (dictionaryWords ++ [word]) (TrieOps.insert word t)
  end.

Fixpoint load_prefixes (items : list string) (prefixList : list string)
    : list string :=
  match items with
  | [] => prefixList
  | item :: rest =>
      let item := sanitize_prefix item in
      if is_empty item then load_prefixes rest prefixList
      else load_prefixes rest (prefixList ++ [item])
  end.

Fixpoint load_nsfw (items : list string) (nsfwList : list string)
    (nsfwTrie : Trie) : list string * Trie :=
  match items with
  | [] => (nsfwList, nsfwTrie)
  | item :: rest =>
      let item := sanitize_nsfw item in
      if is_empty item then load_nsfw rest nsfwList nsfwTrie
      else load_nsfw rest (nsfwList ++ [item]) (TrieOps.insert item nsfwTrie)
  end.

(** [None] stands for the dereference of the null pointer that
    [Lexicon::GetInstance()] returns when there is no instance. *)
Definition UE_LoadDictionary (files : Files) (fileName : string) (w : World)
    : option World :=
  match files fileName "words" with
  | None => Some w
  | Some items =>
      lex ← instance w;
      let '(dw, t) := load_words items [] (Lex.GetTrie lex) in
      Some (MkWorld (Some (MkLexicon t (nsfwTrie lex)))
                    (MkAssets dw (prefixList (assets w)) (nsfwList (assets w))))
  end.

Definition UE_LoadPrefixes (files : Files) (fileName : string) (w : World)
    : option World :=
  match files fileName "prefixes" with
  | None => Some w
  | Some items =>
      Some (MkWorld (instance w)
                    (MkAssets (dictionaryWords (assets w))
                              (load_prefixes items [])
                              (nsfwList (assets w))))
  end.

Definition UE_LoadNSFW (files : Files) (fileName : string) (w : World)
    : option World :=
  match files fileName "nsfw" with
  | None => Some w
  | Some items =>
      lex ← instance w;
      let '(nl, t) := load_nsfw items [] (Lex.GetNSFW lex) in
      Some (MkWorld (Some (MkLexicon (trie lex) t))
                    (MkAssets (dictionaryWords (assets w))
                              (prefixList (assets w)) nl))
  end.

End Assets.

Module Singleton.

(** The state before [main]: no instance, empty lists. *)
Definition start : World := MkWorld None (MkAssets [] [] []).

(** [Lexicon::GetInstance]; the second component is what the call writes
    to [std::cerr]. *)
Definition GetInstance (w : World) : option Lexicon * list string :=
  match instance w with
  | None => (None, ["Error: Lexicon instance is not initialized!"])
  | Some lex => (Some lex, [])
  end.

(** The static [Lexicon::Initialize]. *)
Definition Initialize (files : Files)
    (wordFilename prefixFilename nsfwFilename : string) (w : World)
    : option World :=
  match instance w with
  | None =>
      let w := MkWorld (Some Lex.make) (assets w) in
      w ← Assets.UE_LoadDictionary files wordFilename w;
      w ← Assets.UE_LoadPrefixes files prefixFilename w;
      Assets.UE_LoadNSFW files nsfwFilename w
  | Some _ => Some w
  end.

End Singleton.

(** ** Sample corpora *)

Module Samples.

Definition ca_words : list string :=
  ["cab"; "cad"; "cam"; "can"; "cap"; "car"; "cat"; "caw"; "cay"; "cafe";
   "cage"; "cake"; "calf"; "call"; "calm"; "came"; "camp"; "cane"; "cape";
   "card"].

(** Twenty words that begin with ca. *)
Definition ca_lexicon : Lexicon :=
  MkLexicon (TrieOps.inserted ca_words) TrieOps.new.

(** The same twenty words and the one-letter word a. *)
Definition a_ca_lexicon : Lexicon :=
  MkLexicon (TrieOps.inserted ("a" :: ca_words)) TrieOps.new.

(** The dictionary of the scenario of the specification. *)
Definition cat_lexicon : Lexicon :=
  MkLexicon (TrieOps.inserted ["cat"; "car"; "cart"; "dog"]) TrieOps.new.

(** Three files as the loaders cut them up. *)
Definition sample_files : Files := fun fileName key =>
  if (fileName =? "Dictionary.json") && (key =? "words")
  then Some [" Cat"; "dog "; "  "]
  else if (fileName =? "Prefixes.json") && (key =? "prefixes")
  then Some ["ca"; " do"]
  else if (fileName =? "NSFW.json") && (key =? "nsfw")
  then Some [" Darn "; "DOG"; "heck"]
  else None.

Definition loaded_world : World :=
  default Singleton.start
    (Singleton.Initialize sample_files "Dictionary.json" "Prefixes.json"
       "NSFW.json" Singleton.start).

Definition loaded_lexicon : Lexicon :=
  default Lex.make (instance loaded_world).

End Samples.

(** ** Reading the word files *)

(** The file system as the loaders see it: the text of a file, or [None]
    when the file cannot be opened. *)
Definition Disk : Type := string -> option string.

Module Reader.

(** The double-quote character. *)
Definition dquote : ascii := ascii_of_nat 34.

(** The text the loaders look for: the key between double quotes, then a
    colon. *)
Definition key_text (key : string) : string :=
  String dquote (key ++ String dquote ":").

(** [jsonString.find(needle, pos)]. *)
Definition find_from (jsonString needle : string) (pos : nat) : option nat :=
  String.index pos needle jsonString.

(** The part of the three loaders from [jsonString.find] of the key to
    [jsonString.substr(arrayStart + 1, arrayEnd - arrayStart - 1)]. With
    [arrayStart] equal to [npos] the search for the closing bracket yields
    [npos] too, so one test covers both. *)
Definition array_content (key jsonString : string) : option string :=
  match Str.find jsonString (key_text key) with
  | None => None
  | Some keyPos =>
      match find_from jsonString "[" keyPos with
      | None => None
      | Some arrayStart =>
          match find_from jsonString "]" arrayStart with
          | None => None
          | Some arrayEnd =>
              Some (String.substring (arrayStart + 1)
                      (arrayEnd - arrayStart - 1) jsonString)
          end
      end
  end.

(** The items [std::getline(ss, item, ',')] yields until it fails; [item]
    holds the characters extracted so far by the call in progress. A call
    that meets the end of the stream before any character fails. *)
Fixpoint getline_from (stream item : string) : list string :=
  match stream with
  | EmptyString =>
      match item with
      | EmptyString => []
      | _ => [item]
      end
  | String c rest =>
      if (nat_of_ascii c =? 44)%nat then item :: getline_from rest ""
      else getline_from rest (item ++ String c "")
  end.

Definition getline_all (arrayContent : string) : list string :=
  getline_from arrayContent "".

(** The items of the array under [key] in the file [fileName]. *)
Definition files_of (disk : Disk) : Files := fun fileName key =>
  jsonString ← disk fileName;
  arrayContent ← array_content key jsonString;
  Some (getline_all arrayContent).

End Reader.

(** ** The undo and redo history of the editor ([src/UndoSystem.h]) *)

Module History.

Section Manager.

(** What the actions act on: the variables they hold references to, or
    the components of the entities. *)
Context {Store : Type}.

(** [class IUndoAction]: the two virtual methods the manager calls. *)
Record IUndoAction : Type := MkAction {
  action_Undo : Store -> Store;
  action_Redo : Store -> Store
}.

(** [class UndoRedoManager]; the back of a vector is the end of the
    list. *)
Record UndoRedoManager : Type := MkManager {
  undoStack : list IUndoAction;
  redoStack : list IUndoAction
}.

Definition MAX_UNDO_REDO : nat := 100.

(** [if (stack.size() > MAX_UNDO_REDO) stack.erase(stack.begin());] *)
Definition limit (stack : list IUndoAction) : list IUndoAction :=
  if (MAX_UNDO_REDO <? List.length stack)%nat then tail stack else stack.

(** The body that [PushUndo] and [PushUndoComponent] share, for the action
    each of them makes. *)
Definition push (action : IUndoAction) (m : UndoRedoManager)
    : UndoRedoManager :=
  MkManager (limit (undoStack m ++ [action])) [].

Definition Undo (m : UndoRedoManager) (s : Store) : UndoRedoManager * Store :=
  match last (undoStack m) with
  | None => (m, s)
  | Some action =>
      (MkManager (removelast (undoStack m)) (limit (redoStack m ++ [action])),
       action_Undo action s)
  end.

Definition Redo (m : UndoRedoManager) (s : Store) : UndoRedoManager * Store :=
  match last (redoStack m) with
  | None => (m, s)
  | Some action =>
      (MkManager (limit (undoStack m ++ [action])) (removelast (redoStack m)),
       action_Redo action s)
  end.

Definition CanUndo (m : UndoRedoManager) : bool :=
  match undoStack m with [] => false | _ => true end.

Definition CanRedo (m : UndoRedoManager) : bool :=
  match redoStack m with [] => false | _ => true end.

Definition ClearUndoRedo (m : UndoRedoManager) : UndoRedoManager :=
  MkManager [] [].

(** A manager as its implicit constructor leaves it. *)
Definition fresh : UndoRedoManager := MkManager [] [].

(** Neither stack holds more than [MAX_UNDO_REDO] actions. *)
Definition within_limit (m : UndoRedoManager) : Prop :=
  (List.length (undoStack m) <= MAX_UNDO_REDO)%nat /\
  (List.length (redoStack m) <= MAX_UNDO_REDO)%nat.

(** The calls an editor makes on the manager. *)
Inductive call : Type :=
  | CallPush (action : IUndoAction)
  | CallUndo
  | CallRedo
  | CallClear.

Definition step (ms : UndoRedoManager * Store) (c : call)
    : UndoRedoManager * Store :=
  match c with
  | CallPush action => (push action ms.1, ms.2)
  | CallUndo => Undo ms.1 ms.2
  | CallRedo => Redo ms.1 ms.2
  | CallClear => (ClearUndoRedo ms.1, ms.2)
  end.

Definition run (calls : list call) (ms : UndoRedoManager * Store)
    : UndoRedoManager * Store :=
  fold_left step calls ms.

End Manager.

Arguments IUndoAction : clear implicits.
Arguments UndoRedoManager : clear implicits.
Arguments call : clear implicits.

(** [class UndoAction<T>]: the variable is the cell at [mVar] of a store
    of cells of type [T]. The entity and the two names are only
    printed. *)
Record UndoAction (T : Type) : Type := MkUndoAction {
  mEntity : nat;
  mComponentName : string;
  mVarName : string;
  mVar : nat;
  mPrevValue : T;
  mNewValue : T
}.

Arguments mVar {T}.
Arguments mPrevValue {T}.
Arguments mNewValue {T}.

(** [UndoAction<T>::Undo] and [UndoAction<T>::Redo]. *)
Definition as_action {T : Type} (a : UndoAction T)
    : IUndoAction (gmap nat T) :=
  MkAction (fun s => <[mVar a := mPrevValue a]> s)
           (fun s => <[mVar a := mNewValue a]> s).

(** [UndoRedoManager::PushUndo<T>]. *)
Definition PushUndo {T : Type} (entity : nat)
    (componentName varName : string) (var : nat) (prevValue newValue : T)
    (m : UndoRedoManager (gmap nat T)) : UndoRedoManager (gmap nat T) :=
  push (as_action
          (MkUndoAction T entity componentName varName var prevValue newValue))
       m.

End History.

(** ** What the specification speaks of *)

(** [p] is a leading substring of [w]: [w[0 : len(p)] == p]. *)
Definition INT_MAX : Z := (2 ^ 31 - 1)%Z.

Definition leading (p w : string) : Prop :=
  String.substring 0 (String.length p) w = p.

#[global] Instance leading_dec p w : Decision (leading p w).
Proof. unfold leading. apply _. Defined.

(** The number of words of the dictionary word set that have [p] as a
    leading substring. *)
Definition prefix_count (lex : Lexicon) (p : string) : nat :=
  size (filter (leading p) (TrieOps.getAllWords (trie lex))).

(** [p] is a candidate the generator derives from the sampled word [w]:
    [w] has at least two characters and [p] is cut from it at the fixed or
    at the drawn length, clamped to the length of [w]. *)
Definition candidate_of (length : Z) (Randomize : bool) (w p : string) : Prop :=
  (2 <= String.length w)%nat /\
  exists prefixLength : Z,
    (if Randomize
     then exists r : nat, prefixLength = (Z.rem (Z.of_nat r) length + 1)%Z
     else prefixLength = length) /\
    p = Str.substr0 w (Z.min prefixLength (Z.of_nat (String.length w))).

(** The invariant of the prefix tree: the words found by [search] are the
    members of the word set. *)
Definition synchronized (t : Trie) : Prop :=
  forall w, TrieOps.search w t = true <-> w ∈ words t.

(** A trie as the loaders leave it: synchronized, and every word in it is
    in normal form. *)
Definition normal_trie (t : Trie) : Prop :=
  synchronized t /\ forall x, x ∈ words t -> Lex.normalize x = x.

(** A world in which the singleton exists and both of its tries are as the
    loaders leave them. *)
Definition ready (w : World) : Prop :=
  exists lex, instance w = Some lex /\
              normal_trie (trie lex) /\ normal_trie (nsfwTrie lex).

(** Every character of [s] passes the test [P]. *)
Fixpoint string_forall (P : ascii -> bool) (s : string) : bool :=
  match s with
  | EmptyString => true
  | String c s' => P c && string_forall P s'
  end.

Definition is_char (n : nat) (c : ascii) : bool := (nat_of_ascii c =? n)%nat.

Definition is_upper (c : ascii) : bool :=
  (65 <=? nat_of_ascii c)%nat && (nat_of_ascii c <=? 90)%nat.

Definition starts_with_space (s : string) : bool :=
  match s with
  | EmptyString => false
  | String c _ => Chars.isspace c
  end.

Definition ends_with_space (s : string) : bool := starts_with_space (Str.rev s).

(** The character [c] does not occur in [s]. *)
Definition lacks (c : ascii) (s : string) : bool :=
  string_forall (fun x => negb (Ascii.eqb x c)) s.

(** The items written one after the other with a comma between them. *)
Fixpoint join_commas (items : list string) : string :=
  match items with
  | [] => ""
  | [item] => item
  | item :: rest => item ++ String (ascii_of_nat 44) (join_commas rest)
  end.

(** The words the dictionary loader keeps of the items of a file: each
    item sanitized, the empty ones dropped, in the order of the file. *)
Definition kept_words (items : list string) : list string :=
  filter (fun w : string => w <> "") (Assets.sanitize_word <$> items).

(** The same for the profanity loader and for the prefix loader. *)
Definition kept_nsfw (items : list string) : list string :=
  filter (fun w : string => w <> "") (Assets.sanitize_nsfw <$> items).

Definition kept_prefixes (items : list string) : list string :=
  filter (fun w : string => w <> "") (Assets.sanitize_prefix <$> items).

(** A word as the specification wants it handed to [insert]: not empty,
    without white space at its ends, without upper-case letter and without
    double quote. *)
Definition clean_word (w : string) : Prop :=
  w <> "" /\ trim w = w /\
  string_forall (fun c => negb (is_upper c)) w = true /\
  string_forall (fun c => negb (is_char 34 c)) w = true.

(** ** Facts about characters and strings *)

Section StringFacts.

Lemma isspace_tolower c : Chars.isspace (Chars.tolower c) = Chars.isspace c.
Proof. destruct c as [[] [] [] [] [] [] [] []]; reflexivity. Qed.

Lemma tolower_idem c : Chars.tolower (Chars.tolower c) = Chars.tolower c.
Proof. destruct c as [[] [] [] [] [] [] [] []]; reflexivity. Qed.

Lemma lower_idem s : Str.lower (Str.lower s) = Str.lower s.
Proof. induction s as [|c s IH]; simpl; [done|]. by rewrite tolower_idem, IH. Qed.

Lemma lower_empty s : Str.lower s = "" -> s = "".
Proof. by destruct s. Qed.

Lemma skip_spaces_lower s :
  Str.skip_spaces (Str.lower s) = Str.lower (Str.skip_spaces s).
Proof.
  induction s as [|c s IH]; simpl; [done|].
  rewrite isspace_tolower. by destruct (Chars.isspace c).
Qed.

Lemma rev_onto_lower s acc :
  Str.rev_onto (Str.lower s) (Str.lower acc) = Str.lower (Str.rev_onto s acc).
Proof.
  revert acc. induction s as [|c s IH]; intros acc; simpl; [done|].
  by rewrite <- IH.
Qed.

Lemma rev_lower s : Str.rev (Str.lower s) = Str.lower (Str.rev s).
Proof. unfold Str.rev. by rewrite <- rev_onto_lower. Qed.

Lemma append_cons c (s t : string) : String c s ++ t = String c (s ++ t).
Proof. reflexivity. Qed.

Lemma append_nil (t : string) : "" ++ t = t.
Proof. reflexivity. Qed.

Lemma append_assoc (s t u : string) : (s ++ t) ++ u = s ++ (t ++ u).
Proof.
  induction s as [|c s IH]; [done|]. by rewrite !append_cons, IH.
Qed.

Lemma rev_onto_spec s acc : Str.rev_onto s acc = Str.rev s ++ acc.
Proof.
  unfold Str.rev. revert acc.
  induction s as [|c s IH]; intros acc; simpl; [done|].
  rewrite IH, (IH (String c "")).
  by rewrite append_assoc.
Qed.

Lemma rev_cons c s : Str.rev (String c s) = Str.rev s ++ String c "".
Proof. unfold Str.rev at 1. simpl. by rewrite rev_onto_spec. Qed.

Lemma append_empty_r (s : string) : s ++ "" = s.
Proof. induction s as [|c s IH]; [done|]. by rewrite append_cons, IH. Qed.

Lemma rev_app s t : Str.rev (s ++ t) = Str.rev t ++ Str.rev s.
Proof.
  induction s as [|c s IH].
  - by rewrite append_nil, append_empty_r.
  - by rewrite append_cons, !rev_cons, IH, append_assoc.
Qed.

Lemma rev_involutive s : Str.rev (Str.rev s) = s.
Proof.
  induction s as [|c s IH]; [done|].
  by rewrite rev_cons, rev_app, IH.
Qed.

Lemma skip_spaces_idem s :
  Str.skip_spaces (Str.skip_spaces s) = Str.skip_spaces s.
Proof.
  induction s as [|c s IH]; simpl; [done|].
  destruct (Chars.isspace c) eqn:E; [done|]. simpl. by rewrite E.
Qed.

Lemma skip_spaces_head s c t :
  Str.skip_spaces s = String c t -> Chars.isspace c = false.
Proof.
  induction s as [|d s IH]; simpl; [done|].
  destruct (Chars.isspace d) eqn:E; [done|]. by intros [= <- _].
Qed.

Lemma skip_spaces_snoc s c :
  Chars.isspace c = false ->
  Str.skip_spaces (s ++ String c "") = Str.skip_spaces s ++ String c "".
Proof.
  intros Hc. induction s as [|d s IH].
  - rewrite append_nil. simpl. by rewrite Hc.
  - rewrite append_cons. simpl. by destruct (Chars.isspace d).
Qed.

(** [trim] returns a string that begins and ends with a character that is
    not a space, or the empty string. *)
Lemma trim_shape s :
  trim s = "" \/
  exists c t, trim s = String c t /\ Chars.isspace c = false /\
              Str.skip_spaces (Str.rev (trim s)) = Str.rev (trim s).
Proof.
  unfold trim. destruct (Str.skip_spaces s) as [|c t] eqn:E; [by left|].
  right. pose proof (skip_spaces_head _ _ _ E) as Hc.
  rewrite rev_cons, skip_spaces_snoc by done.
  rewrite rev_app. simpl. eexists _, _. split; [done|]. split; [done|].
  change (String c (Str.rev (Str.skip_spaces (Str.rev t))))
    with (Str.rev (String c "") ++ Str.rev (Str.skip_spaces (Str.rev t))).
  rewrite <- rev_app, rev_involutive, <- skip_spaces_snoc by done.
  apply skip_spaces_idem.
Qed.

Lemma trim_fixed c t :
  Chars.isspace c = false ->
  Str.skip_spaces (Str.rev (String c t)) = Str.rev (String c t) ->
  trim (String c t) = String c t.
Proof.
  intros Hc Hend. unfold trim.
  assert (Str.skip_spaces (String c t) = String c t) as ->
    by (simpl; by rewrite Hc).
  rewrite Hend. apply rev_involutive.
Qed.

Lemma trim_idem s : trim (trim s) = trim s.
Proof.
  destruct (trim_shape s) as [E|(c & t & E & Hc & Hend)]; rewrite E in *.
  - done.
  - by apply trim_fixed.
Qed.

Lemma trim_lower s : trim (Str.lower s) = Str.lower (trim s).
Proof.
  unfold trim. rewrite skip_spaces_lower.
  destruct (Str.skip_spaces s) as [|c t] eqn:E; [done|].
  change (match Str.lower (String c t) with
          | "" => ""
          | String _ _ =>
              Str.rev (Str.skip_spaces (Str.rev (Str.lower (String c t))))
          end = Str.lower (Str.rev (Str.skip_spaces (Str.rev (String c t))))).
  simpl Str.lower at 1. cbv iota.
  by rewrite rev_lower, skip_spaces_lower, rev_lower.
Qed.

Lemma normalize_idem raw : Lex.normalize (Lex.normalize raw) = Lex.normalize raw.
Proof.
  unfold Lex.normalize. by rewrite trim_lower, lower_idem, trim_idem.
Qed.

(** The loaders insert words in normal form only. *)
Lemma sanitize_word_normal item :
  Lex.normalize (Assets.sanitize_word item) = Assets.sanitize_word item.
Proof. apply normalize_idem. Qed.

Lemma sanitize_nsfw_trim item :
  Assets.sanitize_nsfw item = Lex.normalize (Str.erase_quotes item).
Proof.
  unfold Assets.sanitize_nsfw, Lex.normalize, trim. f_equal.
  destruct (Str.skip_spaces (Str.erase_quotes item)); done.
Qed.

Lemma sanitize_nsfw_normal item :
  Lex.normalize (Assets.sanitize_nsfw item) = Assets.sanitize_nsfw item.
Proof. rewrite sanitize_nsfw_trim. apply normalize_idem. Qed.

(** [word.find(prefix) == 0] says that [prefix] is a prefix of [word]. *)
Lemma find_zero word prefix :
  Str.find word prefix = Some 0%nat <-> String.prefix prefix word = true.
Proof.
  unfold Str.find. destruct word as [|b word]; simpl.
  - destruct prefix; simpl; split; congruence.
  - destruct prefix as [|a prefix]; [done|].
    change (String.prefix (String a prefix) (String b word))
      with (if ascii_dec a b then String.prefix prefix word else false).
    destruct (ascii_dec a b) as [->|Hne].
    + destruct (String.prefix prefix word); [done|].
      destruct (String.index 0 (String b prefix) word); split; congruence.
    + destruct (String.index 0 (String a prefix) word); split; congruence.
Qed.

End StringFacts.

(** ** Facts about the prefix tree *)

Section TrieFacts.

Lemma find_zero_leading word prefix :
  Str.find word prefix = Some 0%nat <-> leading prefix word.
Proof. rewrite find_zero. apply String.prefix_correct. Qed.

Lemma prefix_nil w : String.prefix "" w = true.
Proof. by destruct w. Qed.

Lemma prefix_cons a p b w :
  String.prefix (String a p) (String b w)
  = if decide (a = b) then String.prefix p w else false.
Proof.
  simpl. destruct (ascii_dec a b), (decide (a = b)); done.
Qed.

Lemma search_new_node w : Node.search w new_node = false.
Proof. destruct w; simpl; [done|]. by rewrite lookup_empty. Qed.

Lemma startsWith_new_node p :
  Node.startsWith p new_node = match p with "" => true | _ => false end.
Proof. destruct p; simpl; [done|]. by rewrite lookup_empty. Qed.

Lemma search_insert w w' n :
  Node.search w (Node.insert w' n)
  = if decide (w = w') then true else Node.search w n.
Proof.
  revert w n. induction w' as [|c' r' IH]; intros w n.
  - destruct w as [|c r]; [done|]. by rewrite decide_False.
  - destruct w as [|c r]; [by rewrite decide_False|].
    cbn [Node.search Node.insert children].
    rewrite lookup_insert. destruct (decide (c' = c)) as [->|Hne].
    + rewrite IH. destruct (decide (r = r')) as [->|Hr].
      * by rewrite decide_True.
      * rewrite decide_False by congruence.
        destruct (children n !! c); [done|]. apply search_new_node.
    + by rewrite decide_False by congruence.
Qed.

Lemma startsWith_insert p w n :
  Node.startsWith p (Node.insert w n)
  = Node.startsWith p n || String.prefix p w.
Proof.
  revert p n. induction w as [|c' r' IH]; intros p n.
  - destruct p as [|c r]; [done|].
    cbn [Node.startsWith Node.insert children String.prefix].
    by rewrite orb_false_r.
  - destruct p as [|c r]; [done|].
    rewrite prefix_cons. cbn [Node.startsWith Node.insert children].
    rewrite lookup_insert. destruct (decide (c' = c)) as [->|Hne].
    + rewrite decide_True by done. rewrite IH.
      destruct (children n !! c); [done|].
      rewrite startsWith_new_node. destruct r; [|done].
      by rewrite prefix_nil.
    + rewrite decide_False by congruence. by rewrite orb_false_r.
Qed.

Lemma synchronized_new : synchronized TrieOps.new.
Proof.
  intros w. unfold TrieOps.search. simpl. rewrite search_new_node.
  split; [done|]. by intros ?%not_elem_of_empty.
Qed.

Lemma synchronized_insert w t :
  synchronized t -> synchronized (TrieOps.insert w t).
Proof.
  intros Ht v. specialize (Ht v). revert Ht.
  unfold TrieOps.search, TrieOps.insert. simpl.
  rewrite search_insert, elem_of_union, elem_of_singleton.
  destruct (decide (v = w)); naive_solver.
Qed.

Lemma fold_insert_words ws t :
  words (fold_left (fun t w => TrieOps.insert w t) ws t)
  = list_to_set ws ∪ words t.
Proof.
  revert t. induction ws as [|w ws IH]; intros t; simpl.
  - set_solver.
  - rewrite IH. unfold TrieOps.insert. simpl. set_solver.
Qed.

Lemma fold_insert_synchronized ws t :
  synchronized t ->
  synchronized (fold_left (fun t w => TrieOps.insert w t) ws t).
Proof.
  revert t. induction ws as [|w ws IH]; intros t Ht; simpl; [done|].
  by apply IH, synchronized_insert.
Qed.

Lemma fold_insert_startsWith ws t p :
  TrieOps.startsWith p (fold_left (fun t w => TrieOps.insert w t) ws t)
  = TrieOps.startsWith p t || existsb (String.prefix p) ws.
Proof.
  revert t. induction ws as [|w ws IH]; intros t; simpl.
  - by rewrite orb_false_r.
  - rewrite IH. unfold TrieOps.startsWith, TrieOps.insert. simpl.
    by rewrite startsWith_insert, orb_assoc.
Qed.

Lemma inserted_words ws : words (TrieOps.inserted ws) = list_to_set ws.
Proof. unfold TrieOps.inserted. rewrite fold_insert_words. set_solver. Qed.

Lemma inserted_synchronized ws : synchronized (TrieOps.inserted ws).
Proof. apply fold_insert_synchronized, synchronized_new. Qed.

(** [startsWith] after a sequence of insertions, as a truth value. *)
Lemma startsWith_inserted ws p :
  TrieOps.startsWith p (TrieOps.inserted ws)
  = match p with "" => true | _ => false end
    || existsb (String.prefix p) ws.
Proof.
  unfold TrieOps.inserted. rewrite fold_insert_startsWith.
  unfold TrieOps.startsWith. simpl. by rewrite startsWith_new_node.
Qed.

Lemma stored_leading ws p :
  existsb (String.prefix p) ws = true <->
  exists w, w ∈ TrieOps.getAllWords (TrieOps.inserted ws) /\ leading p w.
Proof.
  unfold TrieOps.getAllWords. rewrite inserted_words, existsb_exists.
  split; intros (w & Hw & Hp); exists w.
  - split; [|by apply String.prefix_correct].
    apply elem_of_list_to_set. by apply list_elem_of_In.
  - split; [|by apply String.prefix_correct].
    apply list_elem_of_In. by apply elem_of_list_to_set in Hw.
Qed.

End TrieFacts.

(** C5. After any sequence of insertions, [search w] is true exactly when
    [w] is one of the inserted words (so a word that was never inserted is
    not found, also when it is a proper prefix of an inserted one); the
    word set holds the same words; and a word is found right after its
    insertion into any trie, whatever was inserted before. *)
Theorem search_iff_inserted (ws : list string) (w : string) :
  (TrieOps.search w (TrieOps.inserted ws) = true <-> w ∈ ws) /\
  (w ∈ TrieOps.getAllWords (TrieOps.inserted ws) <-> w ∈ ws) /\
  (forall t, TrieOps.search w (TrieOps.insert w t) = true).
Proof.
  split; [|split].
  - rewrite (inserted_synchronized ws w), inserted_words.
    apply elem_of_list_to_set.
  - unfold TrieOps.getAllWords. rewrite inserted_words.
    apply elem_of_list_to_set.
  - intros t. unfold TrieOps.search, TrieOps.insert. simpl.
    rewrite search_insert. by rewrite decide_True.
Qed.

(** C6, as stated, fails on the trie no word was inserted into:
    [startsWith] of the empty string is true there although no word is
    stored. *)
Lemma startsWith_empty_on_new_trie :
  ~ (TrieOps.startsWith "" (TrieOps.inserted []) = true <->
     exists w, w ∈ TrieOps.getAllWords (TrieOps.inserted []) /\ leading "" w).
Proof.
  intros [H _]. destruct (H eq_refl) as (w & Hw & _).
  by apply not_elem_of_empty in Hw.
Qed.

(** C6, amended. After any sequence of insertions, [startsWith p] is true
    exactly when [p] is the empty string or some stored word has [p] as its
    leading substring; terminal flags play no part. *)
Theorem startsWith_iff_leading (ws : list string) (p : string) :
  TrieOps.startsWith p (TrieOps.inserted ws) = true <->
  p = "" \/
  exists w, w ∈ TrieOps.getAllWords (TrieOps.inserted ws) /\ leading p w.
Proof.
  rewrite startsWith_inserted, orb_true_iff, stored_leading.
  destruct p; naive_solver.
Qed.

(** Once a word has been inserted, C6 holds as it is stated. *)
Lemma startsWith_after_insertion (ws : list string) (p : string) :
  ws <> [] ->
  TrieOps.startsWith p (TrieOps.inserted ws) = true <->
  exists w, w ∈ TrieOps.getAllWords (TrieOps.inserted ws) /\ leading p w.
Proof.
  intros Hne. rewrite startsWith_inserted, orb_true_iff, stored_leading.
  split; [|by right]. intros [Hp|H]; [|done].
  destruct p; [|done]. destruct ws as [|w ws]; [done|].
  exists w. split.
  - unfold TrieOps.getAllWords. rewrite inserted_words. set_solver.
  - unfold leading. by destruct w.
Qed.

(** ** Facts about the lexicon service *)

Section LexiconFacts.

Lemma prefix_count_elements lex p :
  prefix_count lex p
  = List.length (filter (leading p) (elements (TrieOps.getAllWords (trie lex)))).
Proof.
  unfold prefix_count, filter at 1, set_filter.
  apply size_list_to_set, NoDup_filter, NoDup_elements.
Qed.

(** The scan succeeds exactly when a further match exists and the matches
    still to come lift the counter to [MinAmount]. *)
Lemma count_from_spec wordSet prefix MinAmount count :
  Lex.count_from wordSet prefix MinAmount count = true <->
  (1 <= List.length (filter (leading prefix) wordSet))%nat /\
  (MinAmount <= count + Z.of_nat (List.length (filter (leading prefix) wordSet)))%Z.
Proof.
  revert count. induction wordSet as [|word rest IH]; intros count.
  - simpl. split; [done|]. intros [? _]. lia.
  - cbn [Lex.count_from]. rewrite filter_cons.
    destruct (decide (Str.find word prefix = Some 0%nat)) as [Hm|Hm].
    + rewrite decide_True by by apply find_zero_leading.
      cbn [List.length]. destruct (Z.leb_spec MinAmount (count + 1)).
      * split; [|done]. intros _. lia.
      * rewrite IH. lia.
    + rewrite decide_False by by rewrite <- find_zero_leading.
      apply IH.
Qed.

(** The counter climbs by single steps and stops at [MinAmount]. *)
Lemma count_peak_bound wordSet prefix MinAmount count :
  (count <= Lex.count_peak wordSet prefix MinAmount count
         <= Z.max (count + 1) MinAmount)%Z.
Proof.
  revert count. induction wordSet as [|word rest IH]; intros count.
  - simpl. lia.
  - cbn [Lex.count_peak].
    destruct (decide (Str.find word prefix = Some 0%nat)).
    + destruct (Z.leb_spec MinAmount (count + 1)); [lia|].
      specialize (IH (count + 1)%Z). lia.
    + apply IH.
Qed.

(** [count_peak] follows the scan: the scan succeeds exactly when the
    counter moved and reached [MinAmount]. *)
Lemma count_peak_decides wordSet prefix MinAmount count :
  Lex.count_from wordSet prefix MinAmount count = true <->
  (count < Lex.count_peak wordSet prefix MinAmount count)%Z /\
  (MinAmount <= Lex.count_peak wordSet prefix MinAmount count)%Z.
Proof.
  revert count. induction wordSet as [|word rest IH]; intros count.
  - simpl. split; [done|lia].
  - cbn [Lex.count_from Lex.count_peak].
    destruct (decide (Str.find word prefix = Some 0%nat)).
    + destruct (Z.leb_spec MinAmount (count + 1)); [split; [lia|done]|].
      rewrite IH.
      pose proof (count_peak_bound rest prefix MinAmount (count + 1)). lia.
    + apply IH.
Qed.

(** X9. Started at 0 with a threshold that is an [int], the match counter
    of [CheckPrefixHasMinimumWords] never leaves the range of [int]: its
    increment cannot overflow, however many words match. *)
Lemma count_peak_in_range wordSet prefix MinAmount :
  (MinAmount <= INT_MAX)%Z ->
  (0 <= Lex.count_peak wordSet prefix MinAmount 0 <= INT_MAX)%Z.
Proof.
  intros Hk. pose proof (count_peak_bound wordSet prefix MinAmount 0).
  unfold INT_MAX in *. lia.
Qed.

(** X8. The scan of [CheckPrefixHasMinimumWords] gives the same answer
    in whatever order the word set is enumerated. *)
Lemma count_from_order_irrelevant wordSet wordSet' prefix MinAmount count :
  wordSet ≡ₚ wordSet' ->
  Lex.count_from wordSet prefix MinAmount count
  = Lex.count_from wordSet' prefix MinAmount count.
Proof.
  intros Hp. apply eq_true_iff_eq. rewrite !count_from_spec.
  assert (filter (leading prefix) wordSet ≡ₚ filter (leading prefix) wordSet')
    as Hf by by rewrite Hp.
  by rewrite (Permutation_length Hf).
Qed.

(** The result of [CheckPrefixHasMinimumWords] for every threshold. *)
Lemma check_spec lex prefix MinAmount :
  Lex.CheckPrefixHasMinimumWords lex prefix MinAmount = true <->
  (Z.max MinAmount 1 <= Z.of_nat (prefix_count lex prefix))%Z.
Proof.
  rewrite prefix_count_elements. unfold Lex.CheckPrefixHasMinimumWords.
  destruct (decide (TrieOps.getAllWords (trie lex) = ∅)) as [->|_].
  - rewrite elements_empty. simpl. split; [done|lia].
  - rewrite count_from_spec. lia.
Qed.

(** Every word has the empty string as a leading substring. *)
Lemma prefix_count_empty lex :
  prefix_count lex "" = size (TrieOps.getAllWords (trie lex)).
Proof.
  unfold prefix_count. f_equal. apply set_eq. intros w.
  rewrite elem_of_filter. unfold leading. simpl.
  assert (String.substring 0 0 w = "") by by destruct w. naive_solver.
Qed.

End LexiconFacts.

(** C2, as stated, fails at the threshold 0: no word of the dictionary
    cat, car, cart, dog begins with x, the count 0 is at least 0, and the
    scan returns false. *)
Lemma check_false_at_threshold_zero :
  ~ (Lex.CheckPrefixHasMinimumWords Samples.cat_lexicon "x" 0 = true <->
     (0 <= Z.of_nat (prefix_count Samples.cat_lexicon "x"))%Z).
Proof.
  intros [_ H].
  assert (Lex.CheckPrefixHasMinimumWords Samples.cat_lexicon "x" 0 = false)
    as E by by vm_compute.
  rewrite H in E; [done|lia].
Qed.

(** For a threshold below 1 the scan looks for one match only. *)
Lemma check_nonpositive (lex : Lexicon) (p : string) (k : Z) :
  (k <= 0)%Z ->
  Lex.CheckPrefixHasMinimumWords lex p k = true <->
  (1 <= prefix_count lex p)%nat.
Proof. intros Hk. rewrite check_spec. lia. Qed.

(** X7. [CheckPrefixHasMinimumWords] is monotone in its threshold: when it
    holds for [k] it holds for every [k' <= k]. *)
Lemma check_monotone (lex : Lexicon) (p : string) (k k' : Z) :
  (k' <= k)%Z ->
  Lex.CheckPrefixHasMinimumWords lex p k = true ->
  Lex.CheckPrefixHasMinimumWords lex p k' = true.
Proof. intros Hk. rewrite !check_spec. lia. Qed.

(** C2, amended. For every prefix [p] and every integer [k >= 1],
    [CheckPrefixHasMinimumWords p k] is true exactly when the number of
    words of the dictionary word set that have [p] as a leading substring
    is at least [k]. *)
Theorem check_iff_count (lex : Lexicon) (p : string) (k : Z) :
  (1 <= k)%Z ->
  Lex.CheckPrefixHasMinimumWords lex p k = true <->
  (k <= Z.of_nat (prefix_count lex p))%Z.
Proof. intros Hk. rewrite check_spec. lia. Qed.

Lemma check_iff_count_witness :
  (1 <= 3)%Z /\
  (Lex.CheckPrefixHasMinimumWords Samples.cat_lexicon "ca" 3 = true <->
   (3 <= Z.of_nat (prefix_count Samples.cat_lexicon "ca"))%Z).
Proof. split; [lia | apply (check_iff_count Samples.cat_lexicon "ca" 3); lia]. Defined.

(** The scenario of the specification. *)
Example scenario_cat :
  Lex.CheckPrefixHasMinimumWords Samples.cat_lexicon "ca" 3 = true /\
  Lex.CheckPrefixHasMinimumWords Samples.cat_lexicon "ca" 4 = false /\
  Lex.checkUserWord Samples.cat_lexicon "Dog " = true /\
  Lex.isNsfwWord Samples.cat_lexicon "dog" = false /\
  Lex.countLetters "a1 b!c" = 3%nat.
Proof. by vm_compute. Qed.

(** ** The challenge generator *)

Section GeneratorFacts.

Variable lex : Lexicon.
Variables (length : Z) (Randomize : bool).

(** The loop is left only through its condition. *)
Lemma generate_loop_accepts draws :
  forall candidate p rest,
    Lex.generate_loop lex length Randomize candidate draws = Returned p rest ->
    Lex.CheckPrefixHasMinimumWords lex p 20 = true.
Proof.
  induction draws as [draws IH] using (induction_ltof1 _ (@List.length nat)).
  unfold ltof in IH. intros candidate p rest.
  destruct draws as [|r1 draws1]; [done|]. cbn [Lex.generate_loop].
  destruct (_ !! _) as [randomWord|]; [|done].
  destruct (_ <? 2)%nat.
  { destruct (Lex.CheckPrefixHasMinimumWords lex candidate 20) eqn:E.
    - by intros [= <- _].
    - apply IH. simpl. lia. }
  destruct Randomize.
  - destruct draws1 as [|r2 draws2]; [done|].
    destruct (length =? 0)%Z; [done|].
    destruct (Lex.CheckPrefixHasMinimumWords lex _ 20) eqn:E.
    + by intros [= <- _].
    + apply IH. simpl. lia.
  - destruct (Lex.CheckPrefixHasMinimumWords lex _ 20) eqn:E.
    + by intros [= <- _].
    + apply IH. simpl. lia.
Qed.

(** A first draw that lands on a word of fewer than two characters makes
    the loop test the candidate it started with. *)
Lemma generate_loop_short candidate r rest w :
  elements (TrieOps.getAllWords (trie lex))
    !! (r mod List.length (elements (TrieOps.getAllWords (trie lex))))%nat
    = Some w ->
  (String.length w < 2)%nat ->
  Lex.CheckPrefixHasMinimumWords lex candidate 20 = true ->
  Lex.generate_loop lex length Randomize candidate (r :: rest)
  = Returned candidate rest.
Proof.
  intros Hw Hlen Hc. cbn [Lex.generate_loop]. rewrite Hw.
  destruct (Nat.ltb_spec (String.length w) 2); [|lia]. by rewrite Hc.
Qed.

End GeneratorFacts.

(** A first draw whose candidate qualifies ends the call at once. *)
Lemma generate_accepts_first_draw
    (lex : Lexicon) (length : Z) (r : nat) (rest : list nat) (w : string) :
  elements (TrieOps.getAllWords (trie lex))
    !! (r mod List.length (elements (TrieOps.getAllWords (trie lex))))%nat
    = Some w ->
  (2 <= String.length w)%nat ->
  Lex.CheckPrefixHasMinimumWords lex
    (Str.substr0 w (Z.min length (Z.of_nat (String.length w)))) 20 = true ->
  Lex.GeneratePrefixFromRandomWord lex length false (r :: rest)
  = Returned (Str.substr0 w (Z.min length (Z.of_nat (String.length w)))) rest.
Proof.
  intros Hw Hlen Hc. unfold Lex.GeneratePrefixFromRandomWord.
  rewrite decide_False.
  - cbn [Lex.generate_loop]. rewrite Hw.
    destruct (Nat.ltb_spec (String.length w) 2); [lia|]. by rewrite Hc.
  - intros E. rewrite E, elements_empty in Hw. by destruct (r mod _)%nat.
Qed.

(** C1. On a non-empty dictionary, every string that
    [GeneratePrefixFromRandomWord] returns passes
    [CheckPrefixHasMinimumWords] with the threshold 20: at least 20
    dictionary words have it as a leading substring. *)
Theorem generated_prefix_has_minimum_words
    (lex : Lexicon) (length : Z) (Randomize : bool) (draws : list nat)
    (p : string) (rest : list nat) :
  TrieOps.getAllWords (trie lex) <> ∅ ->
  Lex.GeneratePrefixFromRandomWord lex length Randomize draws = Returned p rest ->
  Lex.CheckPrefixHasMinimumWords lex p 20 = true /\
  (20 <= prefix_count lex p)%nat.
Proof.
  intros Hne. unfold Lex.GeneratePrefixFromRandomWord.
  rewrite decide_False by done. intros Hrun.
  apply generate_loop_accepts in Hrun. split; [done|].
  apply check_spec in Hrun. lia.
Qed.

Lemma generated_prefix_has_minimum_words_witness :
  TrieOps.getAllWords (trie Samples.ca_lexicon) <> ∅ /\
  Lex.GeneratePrefixFromRandomWord Samples.ca_lexicon 2 false [0%nat]
    = Returned "ca" [] /\
  Lex.CheckPrefixHasMinimumWords Samples.ca_lexicon "ca" 20 = true /\
  (20 <= prefix_count Samples.ca_lexicon "ca")%nat.
Proof.
  assert (TrieOps.getAllWords (trie Samples.ca_lexicon) <> ∅) as Hne
    by (by vm_compute).
  assert (Lex.GeneratePrefixFromRandomWord Samples.ca_lexicon 2 false [0%nat]
          = Returned "ca" []) as Hrun by (by vm_compute).
  split; [exact Hne|]. split; [exact Hrun|].
  exact (generated_prefix_has_minimum_words
           Samples.ca_lexicon 2 false [0%nat] "ca" [] Hne Hrun).
Defined.

(** X10. On a dictionary of at least one and fewer than 20 words no
    candidate can qualify: [GeneratePrefixFromRandomWord] returns for no
    supply of draws, whatever [length] and [Randomize] are. *)
Lemma generate_never_returns_on_small_dictionary
    (lex : Lexicon) (length : Z) (Randomize : bool) (draws : list nat)
    (p : string) (rest : list nat) :
  TrieOps.getAllWords (trie lex) <> ∅ ->
  (size (TrieOps.getAllWords (trie lex)) < 20)%nat ->
  Lex.GeneratePrefixFromRandomWord lex length Randomize draws <> Returned p rest.
Proof.
  intros Hne Hsize Hrun. unfold Lex.GeneratePrefixFromRandomWord in Hrun.
  rewrite decide_False in Hrun by done.
  apply generate_loop_accepts, check_spec in Hrun.
  assert (prefix_count lex p <= size (TrieOps.getAllWords (trie lex)))%nat.
  { unfold prefix_count. apply subseteq_size. intros x.
    rewrite elem_of_filter. naive_solver. }
  lia.
Qed.

(** C4. When the dictionary holds at least 20 words and the first draw
    lands on a word of fewer than two characters, [continue] takes the
    do-while to its condition with the candidate still empty;
    [CheckPrefixHasMinimumWords] of the empty string counts every word and
    holds; and [GeneratePrefixFromRandomWord length false] returns the
    empty string. *)
Theorem generate_returns_empty_after_short_word
    (lex : Lexicon) (length : Z) (r : nat) (rest : list nat) (w : string) :
  (20 <= size (TrieOps.getAllWords (trie lex)))%nat ->
  elements (TrieOps.getAllWords (trie lex))
    !! (r mod List.length (elements (TrieOps.getAllWords (trie lex))))%nat
    = Some w ->
  (String.length w < 2)%nat ->
  TrieOps.getAllWords (trie lex) <> ∅ /\
  Lex.CheckPrefixHasMinimumWords lex "" 20 = true /\
  Lex.GeneratePrefixFromRandomWord lex length false (r :: rest)
  = Returned "" rest.
Proof.
  intros Hsize Hw Hlen.
  assert (TrieOps.getAllWords (trie lex) <> ∅) as Hne.
  { intros E. rewrite E, size_empty in Hsize. lia. }
  assert (Lex.CheckPrefixHasMinimumWords lex "" 20 = true) as Hc.
  { apply check_spec. rewrite prefix_count_empty. lia. }
  split; [done|]. split; [done|].
  unfold Lex.GeneratePrefixFromRandomWord. rewrite decide_False by done.
  by apply generate_loop_short with w.
Qed.

Lemma generate_returns_empty_after_short_word_witness :
  (20 <= size (TrieOps.getAllWords (trie Samples.a_ca_lexicon)))%nat /\
  elements (TrieOps.getAllWords (trie Samples.a_ca_lexicon))
    !! (20 mod List.length
                 (elements (TrieOps.getAllWords (trie Samples.a_ca_lexicon))))%nat
    = Some "a" /\
  (String.length "a" < 2)%nat /\
  TrieOps.getAllWords (trie Samples.a_ca_lexicon) <> ∅ /\
  Lex.CheckPrefixHasMinimumWords Samples.a_ca_lexicon "" 20 = true /\
  Lex.GeneratePrefixFromRandomWord Samples.a_ca_lexicon 2 false [20%nat]
  = Returned "" [].
Proof.
  assert (20 <= size (TrieOps.getAllWords (trie Samples.a_ca_lexicon)))%nat
    as H1 by (vm_compute; lia).
  assert (elements (TrieOps.getAllWords (trie Samples.a_ca_lexicon))
            !! (20 mod List.length
                  (elements (TrieOps.getAllWords (trie Samples.a_ca_lexicon))))%nat
          = Some "a") as H2 by (vm_compute; reflexivity).
  assert (String.length "a" < 2)%nat as H3 by (simpl; lia).
  split; [exact H1|]. split; [exact H2|]. split; [exact H3|].
  exact (generate_returns_empty_after_short_word
           Samples.a_ca_lexicon 2 20%nat [] "a" H1 H2 H3).
Defined.

(** ** What the generator returns *)

Section GeneratorShape.

Lemma substring_length n w :
  String.length (String.substring 0 n w) = Nat.min n (String.length w).
Proof.
  revert w. induction n as [|n IH]; intros w; [by destruct w|].
  destruct w as [|c w]; [done|]. simpl. by rewrite IH.
Qed.

Lemma substring_leading n w : leading (String.substring 0 n w) w.
Proof.
  unfold leading. revert w. induction n as [|n IH]; intros w; [by destruct w|].
  destruct w as [|c w]; [done|]. simpl. by rewrite IH.
Qed.

Variable lex : Lexicon.
Variables (length : Z) (Randomize : bool).

(** The loop returns the candidate it was entered with or one derived
    from a sampled word of at least two characters. *)
Lemma generate_loop_shape draws :
  forall candidate p rest,
    Lex.generate_loop lex length Randomize candidate draws = Returned p rest ->
    p = candidate \/
    exists w, w ∈ TrieOps.getAllWords (trie lex) /\
              candidate_of length Randomize w p.
Proof.
  induction draws as [draws IH] using (induction_ltof1 _ (@List.length nat)).
  unfold ltof in IH. intros candidate p rest.
  destruct draws as [|r1 draws1]; [done|]. cbn [Lex.generate_loop].
  destruct (_ !! _) as [randomWord|] eqn:Hw; [|done].
  apply list_elem_of_lookup_2, elem_of_elements in Hw.
  destruct (Nat.ltb_spec (String.length randomWord) 2) as [|Hlen].
  { destruct (Lex.CheckPrefixHasMinimumWords lex candidate 20).
    - intros [= <- _]. by left.
    - apply IH. simpl. lia. }
  assert (forall cand' draws' n,
    (List.length draws' < List.length (r1 :: draws1))%nat ->
    (if Randomize
     then exists r : nat, n = (Z.rem (Z.of_nat r) length + 1)%Z
     else n = length) ->
    cand' = Str.substr0 randomWord
              (Z.min n (Z.of_nat (String.length randomWord))) ->
    (if Lex.CheckPrefixHasMinimumWords lex cand' 20
     then Returned cand' draws'
     else Lex.generate_loop lex length Randomize cand' draws') = Returned p rest ->
    p = candidate \/
    exists w, w ∈ TrieOps.getAllWords (trie lex) /\
              candidate_of length Randomize w p) as Hstep.
  { intros cand' draws' n Hlt Hn Hcand Hrun.
    assert (candidate_of length Randomize randomWord cand') as Hder
      by (split; [done|]; by exists n).
    right. destruct (Lex.CheckPrefixHasMinimumWords lex cand' 20).
    - injection Hrun as <- _. by exists randomWord.
    - destruct (IH _ Hlt _ _ _ Hrun) as [->|?]; [|done]. by exists randomWord. }
  destruct Randomize.
  - destruct draws1 as [|r2 draws2]; [done|].
    destruct (length =? 0)%Z; [done|].
    apply Hstep with (n := (Z.rem (Z.of_nat r2) length + 1)%Z);
      [simpl; lia | by exists r2 | done].
  - apply Hstep with (n := length); [simpl; lia | done | done].
Qed.

(** With [length >= 1], a derived candidate is what the specification
    describes. *)
Lemma candidate_of_spec w p :
  (1 <= length)%Z ->
  candidate_of length Randomize w p ->
  leading p w /\ p <> "" /\
  (if Randomize
   then (1 <= Z.of_nat (String.length p)
           <= Z.min length (Z.of_nat (String.length w)))%Z
   else Z.of_nat (String.length p)
        = Z.min length (Z.of_nat (String.length w))).
Proof.
  intros Hlen (Hw & n & Hn & ->).
  assert (1 <= n <= length)%Z as Hrange.
  { destruct Randomize; [|lia]. destruct Hn as (r & ->).
    pose proof (Z.rem_bound_pos (Z.of_nat r) length). lia. }
  unfold Str.substr0. destruct (Z.ltb_spec (Z.min n (Z.of_nat (String.length w))) 0);
    [lia|].
  assert (String.length
            (String.substring 0
               (Z.to_nat (Z.min n (Z.of_nat (String.length w)))) w)
          = Z.to_nat (Z.min n (Z.of_nat (String.length w)))) as Hl
    by (rewrite substring_length; lia).
  split; [apply substring_leading|]. split.
  - intros E. rewrite E in Hl. simpl in Hl. lia.
  - destruct Randomize; [|subst n]; lia.
Qed.

End GeneratorShape.

(** X11. What [GeneratePrefixFromRandomWord] returns for [length >= 1] on
    a non-empty dictionary is the empty string the candidate is initialised
    to, or a non-empty leading substring of a dictionary word of at least
    two characters, of length [min(length, |word|)] without [Randomize] and
    between 1 and that bound with it. *)
Lemma generated_prefix_shape
    (lex : Lexicon) (length : Z) (Randomize : bool) (draws : list nat)
    (p : string) (rest : list nat) :
  TrieOps.getAllWords (trie lex) <> ∅ ->
  (1 <= length)%Z ->
  Lex.GeneratePrefixFromRandomWord lex length Randomize draws = Returned p rest ->
  p = "" \/
  exists w, w ∈ TrieOps.getAllWords (trie lex) /\
    (2 <= String.length w)%nat /\ leading p w /\ p <> "" /\
    (if Randomize
     then (1 <= Z.of_nat (String.length p)
             <= Z.min length (Z.of_nat (String.length w)))%Z
     else Z.of_nat (String.length p)
          = Z.min length (Z.of_nat (String.length w))).
Proof.
  intros Hne Hlen. unfold Lex.GeneratePrefixFromRandomWord.
  rewrite decide_False by done. intros Hrun.
  destruct (generate_loop_shape _ _ _ _ _ _ _ Hrun) as [->|(w & Hw & Hc)];
    [by left|].
  right. exists w. split; [done|]. split; [apply Hc|].
  by apply candidate_of_spec.
Qed.

(** C3 at a failing input: the dictionary holds the one-letter word a and
    twenty words that begin with ca, [length] is 2, [Randomize] is false
    and the first draw lands on a. The call returns the empty string,
    which has neither the length 2 nor the length of a. *)
Theorem generate_returns_empty_prefix :
  TrieOps.getAllWords (trie Samples.a_ca_lexicon) <> ∅ /\
  elements (TrieOps.getAllWords (trie Samples.a_ca_lexicon)) !! 20%nat
    = Some "a" /\
  Lex.GeneratePrefixFromRandomWord Samples.a_ca_lexicon 2 false [20%nat]
    = Returned "" [].
Proof. split; [by vm_compute|]. split; by vm_compute. Qed.

(** ** Initialisation and the loaders *)

Section LoaderFacts.

Lemma normal_trie_new : normal_trie TrieOps.new.
Proof. split; [apply synchronized_new|]. by intros x ?%not_elem_of_empty. Qed.

Lemma normal_trie_insert w t :
  Lex.normalize w = w -> normal_trie t -> normal_trie (TrieOps.insert w t).
Proof.
  intros Hw [Hs Hn]. split; [by apply synchronized_insert|].
  intros x. unfold TrieOps.insert. simpl.
  rewrite elem_of_union, elem_of_singleton. intros [->|?]; auto.
Qed.

Lemma load_words_normal items dw t :
  normal_trie t -> normal_trie (Assets.load_words items dw t).2.
Proof.
  revert dw t. induction items as [|item rest IH]; intros dw t Ht; [done|].
  simpl. destruct (Assets.is_empty _); [by apply IH|].
  apply IH, normal_trie_insert; [apply sanitize_word_normal|done].
Qed.

Lemma load_nsfw_normal items nl t :
  normal_trie t -> normal_trie (Assets.load_nsfw items nl t).2.
Proof.
  revert nl t. induction items as [|item rest IH]; intros nl t Ht; [done|].
  simpl. destruct (Assets.is_empty _); [by apply IH|].
  apply IH, normal_trie_insert; [apply sanitize_nsfw_normal|done].
Qed.

Variable files : Files.

Lemma UE_LoadDictionary_ready fileName w :
  ready w ->
  exists w', Assets.UE_LoadDictionary files fileName w = Some w' /\ ready w'.
Proof.
  intros (lex & Hi & Ht & Hn). unfold Assets.UE_LoadDictionary.
  destruct (files fileName "words") as [items|]; [|exists w; split; [done|by exists lex]].
  rewrite Hi. simpl.
  pose proof (load_words_normal items [] (Lex.GetTrie lex) Ht) as Hl.
  destruct (Assets.load_words items [] (Lex.GetTrie lex)) as [dw t].
  eexists. split; [done|]. eexists. by split.
Qed.

Lemma UE_LoadPrefixes_ready fileName w :
  ready w ->
  exists w', Assets.UE_LoadPrefixes files fileName w = Some w' /\ ready w'.
Proof.
  intros (lex & Hi & Ht & Hn). unfold Assets.UE_LoadPrefixes.
  destruct (files fileName "prefixes") as [items|]; eexists; (split; [done|]);
    by exists lex.
Qed.

Lemma UE_LoadNSFW_ready fileName w :
  ready w ->
  exists w', Assets.UE_LoadNSFW files fileName w = Some w' /\ ready w'.
Proof.
  intros (lex & Hi & Ht & Hn). unfold Assets.UE_LoadNSFW.
  destruct (files fileName "nsfw") as [items|]; [|exists w; split; [done|by exists lex]].
  rewrite Hi. simpl.
  pose proof (load_nsfw_normal items [] (Lex.GetNSFW lex) Hn) as Hl.
  destruct (Assets.load_nsfw items [] (Lex.GetNSFW lex)) as [nl t].
  eexists. split; [done|]. eexists. by split.
Qed.

(** The first [Initialize] returns, and leaves the singleton in place with
    both tries as the loaders fill them. *)
Lemma Initialize_first wordFilename prefixFilename nsfwFilename w :
  instance w = None ->
  exists w',
    Singleton.Initialize files wordFilename prefixFilename nsfwFilename w
      = Some w' /\ ready w'.
Proof.
  intros Hi. unfold Singleton.Initialize. rewrite Hi.
  assert (ready (MkWorld (Some Lex.make) (assets w))) as H0.
  { exists Lex.make. split; [done|]. split; apply normal_trie_new. }
  destruct (UE_LoadDictionary_ready wordFilename _ H0) as (w1 & -> & H1).
  simpl.
  destruct (UE_LoadPrefixes_ready prefixFilename _ H1) as (w2 & -> & H2).
  simpl. apply UE_LoadNSFW_ready, H2.
Qed.

(** With the singleton in place [Initialize] does nothing. *)
Lemma Initialize_again wordFilename prefixFilename nsfwFilename w :
  instance w <> None ->
  Singleton.Initialize files wordFilename prefixFilename nsfwFilename w = Some w.
Proof.
  intros Hi. unfold Singleton.Initialize. by destruct (instance w).
Qed.

(** [Initialize] always returns, and the singleton exists afterwards. *)
Lemma Initialize_returns wordFilename prefixFilename nsfwFilename w :
  exists w',
    Singleton.Initialize files wordFilename prefixFilename nsfwFilename w
      = Some w' /\ instance w' <> None.
Proof.
  destruct (instance w) as [lex|] eqn:Hi.
  - exists w. split; [apply Initialize_again|]; by rewrite Hi.
  - destruct (Initialize_first wordFilename prefixFilename nsfwFilename w Hi)
      as (w' & Hw' & lex & Hl & _).
    exists w'. split; [done|]. by rewrite Hl.
Qed.

End LoaderFacts.

(** C7. [checkUserWord] of a raw input equals [checkUserWord] of its
    lowercased, trimmed form; so the input CAT with two spaces before and
    one after it is judged as cat is. *)
Theorem checkUserWord_normalizes (lex : Lexicon) (raw : string) :
  Lex.checkUserWord lex raw = Lex.checkUserWord lex (Str.lower (trim raw)) /\
  Lex.checkUserWord lex "  CAT " = Lex.checkUserWord lex "cat".
Proof.
  split.
  - unfold Lex.checkUserWord.
    change (Str.lower (trim raw)) with (Lex.normalize raw).
    by rewrite normalize_idem.
  - reflexivity.
Qed.

(** [isNsfwWord] of a raw input equals [isNsfwWord] of its
    lowercased, trimmed form. *)
Lemma isNsfwWord_normalizes (lex : Lexicon) (raw : string) :
  Lex.isNsfwWord lex raw = Lex.isNsfwWord lex (Str.lower (trim raw)).
Proof.
  unfold Lex.isNsfwWord.
  change (Str.lower (trim raw)) with (Lex.normalize raw).
  by rewrite normalize_idem.
Qed.

(** C8. In the lexicon that [Initialize] has filled, a word that is in the
    profanity trie and not in the dictionary trie is rejected by
    [checkUserWord], and a word that is in the dictionary trie and not in
    the profanity trie is rejected by [isNsfwWord]; and an insertion into
    one trie changes no answer of the query against the other. *)
Theorem corpora_independent
    (files : Files) (wordFilename prefixFilename nsfwFilename : string)
    (w0 w : World) (lex : Lexicon) :
  instance w0 = None ->
  Singleton.Initialize files wordFilename prefixFilename nsfwFilename w0
    = Some w ->
  instance w = Some lex ->
  (forall x, x ∈ TrieOps.getAllWords (nsfwTrie lex) ->
             x ∉ TrieOps.getAllWords (trie lex) ->
             Lex.checkUserWord lex x = false) /\
  (forall x, x ∈ TrieOps.getAllWords (trie lex) ->
             x ∉ TrieOps.getAllWords (nsfwTrie lex) ->
             Lex.isNsfwWord lex x = false) /\
  (forall v raw,
     Lex.checkUserWord (MkLexicon (trie lex) (TrieOps.insert v (nsfwTrie lex))) raw
     = Lex.checkUserWord lex raw) /\
  (forall v raw,
     Lex.isNsfwWord (MkLexicon (TrieOps.insert v (trie lex)) (nsfwTrie lex)) raw
     = Lex.isNsfwWord lex raw).
Proof.
  intros H0 Hinit Hlex.
  destruct (Initialize_first files wordFilename prefixFilename nsfwFilename w0 H0)
    as (w' & Hw' & lex' & Hl' & [Hds Hdn] & [Hns Hnn]).
  assert (w' = w) as -> by congruence.
  assert (lex' = lex) as -> by congruence.
  unfold TrieOps.getAllWords.
  split; [|split; [|split; done]].
  - intros x Hin Hout. unfold Lex.checkUserWord. rewrite (Hnn x Hin).
    destruct (TrieOps.search x (trie lex)) eqn:E; [|done].
    by apply Hds in E.
  - intros x Hin Hout. unfold Lex.isNsfwWord. rewrite (Hdn x Hin).
    destruct (TrieOps.search x (nsfwTrie lex)) eqn:E; [|done].
    by apply Hns in E.
Qed.

Lemma corpora_independent_witness :
  instance Singleton.start = None /\
  Singleton.Initialize Samples.sample_files "Dictionary.json" "Prefixes.json"
    "NSFW.json" Singleton.start = Some Samples.loaded_world /\
  instance Samples.loaded_world = Some Samples.loaded_lexicon /\
  ("darn" ∈ TrieOps.getAllWords (nsfwTrie Samples.loaded_lexicon)) /\
  ("darn" ∉ TrieOps.getAllWords (trie Samples.loaded_lexicon)) /\
  Lex.checkUserWord Samples.loaded_lexicon "darn" = false /\
  ("cat" ∈ TrieOps.getAllWords (trie Samples.loaded_lexicon)) /\
  ("cat" ∉ TrieOps.getAllWords (nsfwTrie Samples.loaded_lexicon)) /\
  Lex.isNsfwWord Samples.loaded_lexicon "cat" = false.
Proof.
  assert (instance Singleton.start = None) as H0 by reflexivity.
  assert (Singleton.Initialize Samples.sample_files "Dictionary.json"
            "Prefixes.json" "NSFW.json" Singleton.start
          = Some Samples.loaded_world) as H1 by (vm_compute; reflexivity).
  assert (instance Samples.loaded_world = Some Samples.loaded_lexicon) as H2
    by (vm_compute; reflexivity).
  assert ("darn" ∈ TrieOps.getAllWords (nsfwTrie Samples.loaded_lexicon)) as H3
    by (apply (bool_decide_unpack _); vm_compute; exact I).
  assert ("darn" ∉ TrieOps.getAllWords (trie Samples.loaded_lexicon)) as H4
    by (apply (bool_decide_unpack _); vm_compute; exact I).
  assert ("cat" ∈ TrieOps.getAllWords (trie Samples.loaded_lexicon)) as H5
    by (apply (bool_decide_unpack _); vm_compute; exact I).
  assert ("cat" ∉ TrieOps.getAllWords (nsfwTrie Samples.loaded_lexicon)) as H6
    by (apply (bool_decide_unpack _); vm_compute; exact I).
  pose proof (corpora_independent Samples.sample_files "Dictionary.json"
                "Prefixes.json" "NSFW.json" Singleton.start
                Samples.loaded_world Samples.loaded_lexicon H0 H1 H2)
    as (Hc & Hn & _).
  repeat split; auto.
Defined.

(** C9. Once [Initialize] has completed, every further call, whatever the
    files and file names, returns the world as it is: the instance, both
    tries and the word lists stay as they were. *)
Theorem initialize_again_is_noop
    (files files' : Files)
    (wordFilename prefixFilename nsfwFilename : string)
    (wordFilename' prefixFilename' nsfwFilename' : string)
    (w0 w : World) :
  Singleton.Initialize files wordFilename prefixFilename nsfwFilename w0
    = Some w ->
  Singleton.Initialize files' wordFilename' prefixFilename' nsfwFilename' w
    = Some w.
Proof.
  intros Hinit. apply Initialize_again.
  destruct (Initialize_returns files wordFilename prefixFilename nsfwFilename w0)
    as (w' & Hw' & Hi).
  congruence.
Qed.

Lemma initialize_again_is_noop_witness :
  Singleton.Initialize Samples.sample_files "Dictionary.json" "Prefixes.json"
    "NSFW.json" Singleton.start = Some Samples.loaded_world /\
  Singleton.Initialize (fun _ _ => Some ["other"]) "a.json" "b.json" "c.json"
    Samples.loaded_world = Some Samples.loaded_world.
Proof.
  assert (Singleton.Initialize Samples.sample_files "Dictionary.json"
            "Prefixes.json" "NSFW.json" Singleton.start
          = Some Samples.loaded_world) as H1 by (vm_compute; reflexivity).
  split; [exact H1|].
  exact (initialize_again_is_noop Samples.sample_files (fun _ _ => Some ["other"])
           "Dictionary.json" "Prefixes.json" "NSFW.json"
           "a.json" "b.json" "c.json" Singleton.start Samples.loaded_world H1).
Defined.

(** X14. On a non-empty prefix list [getRandomPrefix] reads one draw,
    returns an entry of the list whatever the draw is, and writes no
    diagnostic. *)
Lemma getRandomPrefix_member (prefixes : list string) (r : nat)
    (rest : list nat) :
  prefixes <> [] ->
  exists p, p ∈ prefixes /\
            Lex.getRandomPrefix prefixes (r :: rest) = (Returned p rest, []).
Proof.
  intros Hne. unfold Lex.getRandomPrefix.
  destruct prefixes as [|q qs]; [done|].
  destruct (lookup_lt_is_Some_2 (q :: qs) (r mod List.length (q :: qs))%nat)
    as [p Hp].
  { apply Nat.mod_upper_bound. done. }
  rewrite Hp. exists p. split; [|done]. by apply list_elem_of_lookup_2 in Hp.
Qed.

(** C10. [GetInstance] in a world without instance returns no instance and
    writes a diagnostic; [getRandomPrefix] on an empty prefix list returns
    the empty string, writes a diagnostic and reads no draw. Both are
    ordinary returns. *)
Theorem misuse_returns_sentinel (a : AssetManager) (draws : list nat) :
  Singleton.GetInstance (MkWorld None a)
    = (None, ["Error: Lexicon instance is not initialized!"]) /\
  Singleton.GetInstance Singleton.start
    = (None, ["Error: Lexicon instance is not initialized!"]) /\
  Lex.getRandomPrefix [] draws
    = (Returned "" draws, ["Error: No prefixes loaded!"]).
Proof. done. Qed.

(** ** More about trimming and normalisation *)

Section TrimFacts.

Lemma string_forall_app P (a b : string) :
  string_forall P (a ++ b) = string_forall P a && string_forall P b.
Proof.
  induction a as [|c a IH]; [done|].
  rewrite append_cons. simpl. by rewrite IH, andb_assoc.
Qed.

Lemma string_forall_rev P s : string_forall P (Str.rev s) = string_forall P s.
Proof.
  induction s as [|c s IH]; [done|].
  rewrite rev_cons, string_forall_app, IH. simpl.
  by rewrite andb_true_r, andb_comm.
Qed.

Lemma skip_spaces_decompose s :
  exists a, s = a ++ Str.skip_spaces s /\ string_forall Chars.isspace a = true.
Proof.
  induction s as [|c s (a & Ha & Hsp)]; [by exists ""|].
  simpl. destruct (Chars.isspace c) eqn:E.
  - exists (String c a). rewrite append_cons, <- Ha. simpl. by rewrite E.
  - by exists "".
Qed.

Lemma skip_spaces_fixed_head s :
  Str.skip_spaces s = s -> starts_with_space s = false.
Proof.
  destruct s as [|c t]; [done|]. intros E. simpl.
  exact (skip_spaces_head _ _ _ E).
Qed.

(** [trim] takes spaces, and nothing else, off both ends. *)
Lemma trim_decompose s :
  exists a b, s = a ++ trim s ++ b /\
              string_forall Chars.isspace a = true /\
              string_forall Chars.isspace b = true.
Proof.
  destruct (skip_spaces_decompose s) as (a & Ha & Hsa). unfold trim.
  destruct (Str.skip_spaces s) as [|c t] eqn:E.
  - exists a, "". by rewrite append_nil.
  - destruct (skip_spaces_decompose (Str.rev (String c t))) as (b & Hb & Hsb).
    exists a, (Str.rev b). split; [|split; [done|by rewrite string_forall_rev]].
    rewrite <- rev_app, <- Hb, rev_involutive. exact Ha.
Qed.

Lemma isalpha_tolower c : Chars.isalpha (Chars.tolower c) = Chars.isalpha c.
Proof. destruct c as [[] [] [] [] [] [] [] []]; reflexivity. Qed.

Lemma isspace_not_alpha c : Chars.isspace c = true -> Chars.isalpha c = false.
Proof. destruct c as [[] [] [] [] [] [] [] []]; (reflexivity || discriminate). Qed.

Lemma countLetters_app (a b : string) :
  Lex.countLetters (a ++ b) = (Lex.countLetters a + Lex.countLetters b)%nat.
Proof.
  induction a as [|c a IH]; [done|].
  rewrite append_cons. simpl. rewrite IH. by destruct (Chars.isalpha c).
Qed.

Lemma countLetters_spaces a :
  string_forall Chars.isspace a = true -> Lex.countLetters a = 0%nat.
Proof.
  induction a as [|c a IH]; [done|]. simpl.
  intros [Hc Ha]%andb_true_iff. rewrite (isspace_not_alpha c Hc). auto.
Qed.

Lemma countLetters_lower s : Lex.countLetters (Str.lower s) = Lex.countLetters s.
Proof.
  induction s as [|c s IH]; [done|]. simpl.
  by rewrite isalpha_tolower, IH.
Qed.

End TrimFacts.

(** X1. [trim] removes white space from the two ends and nothing else: the
    input is the result between two runs of white space, and the result
    neither begins nor ends with white space. *)
Theorem trim_strips_both_ends (s : string) :
  starts_with_space (trim s) = false /\
  ends_with_space (trim s) = false /\
  exists a b, s = a ++ trim s ++ b /\
              string_forall Chars.isspace a = true /\
              string_forall Chars.isspace b = true.
Proof.
  split; [|split; [|apply trim_decompose]].
  - destruct (trim_shape s) as [->|(c & t & -> & Hc & _)]; [done|]. exact Hc.
  - unfold ends_with_space.
    destruct (trim_shape s) as [->|(c & t & E & _ & Hend)]; [done|].
    by apply skip_spaces_fixed_head.
Qed.

(** The profanity loader strips its items by two erasures in place,
    the dictionary loader by [trim]: both leave the same word. *)
Theorem sanitize_nsfw_like_word (item : string) :
  Assets.sanitize_nsfw item = Assets.sanitize_word item.
Proof.
  unfold Assets.sanitize_nsfw, Assets.sanitize_word, trim. f_equal.
  by destruct (Str.skip_spaces (Str.erase_quotes item)).
Qed.

(** X2. The letter count used for scoring is that of the normalised word:
    trimming and lowercasing change no letter count. *)
Theorem countLetters_normalize (raw : string) :
  Lex.countLetters (Lex.normalize raw) = Lex.countLetters raw.
Proof.
  unfold Lex.normalize. rewrite countLetters_lower.
  destruct (trim_decompose raw) as (a & b & E & Ha & Hb).
  rewrite E at 2. rewrite !countLetters_app.
  rewrite (countLetters_spaces a Ha), (countLetters_spaces b Hb). lia.
Qed.

(** ** More about the prefix tree *)

Section TrieAlgebra.

Lemma node_eta n : MkNode (children n) (isEndOfWord n) = n.
Proof. by destruct n. Qed.

Lemma node_insert_idem w n :
  Node.insert w (Node.insert w n) = Node.insert w n.
Proof.
  revert n. induction w as [|c r IH]; intros n; [done|].
  cbn [Node.insert children isEndOfWord].
  rewrite lookup_insert_eq, IH. by rewrite insert_insert_eq.
Qed.

Lemma node_insert_comm a b n :
  Node.insert a (Node.insert b n) = Node.insert b (Node.insert a n).
Proof.
  revert b n. induction a as [|c r IH]; intros b n.
  - by destruct b.
  - destruct b as [|d q]; [done|].
    cbn [Node.insert children isEndOfWord].
    destruct (decide (c = d)) as [->|Hne].
    + rewrite !lookup_insert_eq, !insert_insert_eq. by rewrite IH.
    + rewrite !lookup_insert_ne by done.
      by rewrite insert_insert_ne by done.
Qed.

Lemma search_startsWith w n :
  Node.search w n = true -> Node.startsWith w n = true.
Proof.
  revert n. induction w as [|c r IH]; intros n; [done|]. simpl.
  destruct (children n !! c); [apply IH|done].
Qed.

Lemma startsWith_prefix_closed p w n :
  String.prefix p w = true ->
  Node.startsWith w n = true -> Node.startsWith p n = true.
Proof.
  revert w n. induction p as [|a p IH]; intros w n; [done|].
  destruct w as [|b w]; [done|]. rewrite prefix_cons.
  destruct (decide (a = b)) as [->|]; [|done]. simpl.
  destruct (children n !! b); [apply IH|done].
Qed.

End TrieAlgebra.

(** X3. Inserting a word a second time changes nothing, neither in the
    tree nor in the word set. *)
Theorem insert_idempotent (w : string) (t : Trie) :
  TrieOps.insert w (TrieOps.insert w t) = TrieOps.insert w t.
Proof.
  unfold TrieOps.insert. simpl. rewrite node_insert_idem. f_equal.
  set_solver.
Qed.

(** X4. The order of two insertions does not matter: the same tree and the
    same word set result. *)
Theorem insert_commutes (a b : string) (t : Trie) :
  TrieOps.insert a (TrieOps.insert b t) = TrieOps.insert b (TrieOps.insert a t).
Proof.
  unfold TrieOps.insert. simpl. rewrite node_insert_comm. f_equal.
  set_solver.
Qed.

(** X5. On any trie, inserting [w] changes the answers for [w] alone:
    [search] and membership in the word set of every other word stay as
    they were, and no prefix that was a path stops being one. *)
Theorem insert_frames_other_words (w v : string) (t : Trie) :
  v <> w ->
  TrieOps.search v (TrieOps.insert w t) = TrieOps.search v t /\
  (v ∈ TrieOps.getAllWords (TrieOps.insert w t) <-> v ∈ TrieOps.getAllWords t) /\
  (TrieOps.startsWith v t = true ->
   TrieOps.startsWith v (TrieOps.insert w t) = true).
Proof.
  intros Hne. unfold TrieOps.search, TrieOps.startsWith, TrieOps.insert,
    TrieOps.getAllWords. simpl. split; [|split].
  - rewrite search_insert. by rewrite decide_False.
  - set_solver.
  - intros H. by rewrite startsWith_insert, H.
Qed.

Lemma insert_frames_other_words_witness :
  "car" <> "cat" /\
  TrieOps.search "car" (TrieOps.insert "cat" (TrieOps.inserted ["car"]))
  = TrieOps.search "car" (TrieOps.inserted ["car"]).
Proof.
  assert ("car" <> "cat") as Hne by discriminate.
  split; [exact Hne|].
  exact (proj1 (insert_frames_other_words "cat" "car"
                  (TrieOps.inserted ["car"]) Hne)).
Defined.

(** X6. On any trie, every leading substring of a word that [search] finds,
    and of a prefix that [startsWith] accepts, is accepted by
    [startsWith]. *)
Theorem leading_substrings_are_paths (p w : string) (t : Trie) :
  leading p w ->
  (TrieOps.search w t = true -> TrieOps.startsWith p t = true) /\
  (TrieOps.startsWith w t = true -> TrieOps.startsWith p t = true).
Proof.
  intros Hp%String.prefix_correct. unfold TrieOps.search, TrieOps.startsWith.
  split; intros H.
  - by apply startsWith_prefix_closed with w, search_startsWith.
  - by apply startsWith_prefix_closed with w.
Qed.

Lemma leading_substrings_are_paths_witness :
  leading "ca" "cat" /\
  TrieOps.search "cat" (TrieOps.inserted ["cat"]) = true /\
  TrieOps.startsWith "ca" (TrieOps.inserted ["cat"]) = true.
Proof.
  assert (leading "ca" "cat") as H by reflexivity.
  assert (TrieOps.search "cat" (TrieOps.inserted ["cat"]) = true) as Hs
    by (vm_compute; reflexivity).
  split; [exact H|]. split; [exact Hs|].
  exact (proj1 (leading_substrings_are_paths "ca" "cat"
                  (TrieOps.inserted ["cat"]) H) Hs).
Defined.

(** ** More about the threshold check and the generator *)

Lemma check_monotone_witness :
  (3 <= 20)%Z /\
  Lex.CheckPrefixHasMinimumWords Samples.ca_lexicon "ca" 20 = true /\
  Lex.CheckPrefixHasMinimumWords Samples.ca_lexicon "ca" 3 = true.
Proof.
  assert (3 <= 20)%Z as Hk by lia.
  assert (Lex.CheckPrefixHasMinimumWords Samples.ca_lexicon "ca" 20 = true)
    as Hc by (vm_compute; reflexivity).
  split; [exact Hk|]. split; [exact Hc|].
  exact (check_monotone Samples.ca_lexicon "ca" 20 3 Hk Hc).
Defined.

Lemma count_from_order_irrelevant_witness :
  ["cat"; "car"; "dog"] ≡ₚ ["dog"; "cat"; "car"] /\
  Lex.count_from ["cat"; "car"; "dog"] "ca" 2 0
  = Lex.count_from ["dog"; "cat"; "car"] "ca" 2 0.
Proof.
  assert (["cat"; "car"; "dog"] ≡ₚ ["dog"; "cat"; "car"]) as Hp.
  { change (["cat"; "car"] ++ ["dog"] ≡ₚ ["dog"] ++ ["cat"; "car"]).
    apply Permutation_app_comm. }
  split; [exact Hp|].
  exact (count_from_order_irrelevant _ _ "ca" 2 0 Hp).
Defined.

Lemma count_peak_in_range_witness :
  (20 <= INT_MAX)%Z /\
  (0 <= Lex.count_peak Samples.ca_words "ca" 20 0 <= INT_MAX)%Z.
Proof.
  assert (20 <= INT_MAX)%Z as Hk by (unfold INT_MAX; lia).
  split; [exact Hk|].
  exact (count_peak_in_range Samples.ca_words "ca" 20 Hk).
Defined.

Lemma generate_never_returns_on_small_dictionary_witness :
  TrieOps.getAllWords (trie Samples.cat_lexicon) <> ∅ /\
  (size (TrieOps.getAllWords (trie Samples.cat_lexicon)) < 20)%nat /\
  Lex.GeneratePrefixFromRandomWord Samples.cat_lexicon 2 false [0%nat; 1%nat]
  <> Returned "ca" [].
Proof.
  assert (TrieOps.getAllWords (trie Samples.cat_lexicon) <> ∅) as Hne
    by (by vm_compute).
  assert (size (TrieOps.getAllWords (trie Samples.cat_lexicon)) < 20)%nat
    as Hsz by (vm_compute; lia).
  split; [exact Hne|]. split; [exact Hsz|].
  exact (generate_never_returns_on_small_dictionary Samples.cat_lexicon 2 false
           [0%nat; 1%nat] "ca" [] Hne Hsz).
Defined.

Lemma generated_prefix_shape_witness :
  TrieOps.getAllWords (trie Samples.ca_lexicon) <> ∅ /\
  (1 <= 2)%Z /\
  Lex.GeneratePrefixFromRandomWord Samples.ca_lexicon 2 false [0%nat]
    = Returned "ca" [] /\
  ("ca" = "" \/
   exists w, w ∈ TrieOps.getAllWords (trie Samples.ca_lexicon) /\
     (2 <= String.length w)%nat /\ leading "ca" w /\ "ca" <> "" /\
     Z.of_nat (String.length "ca") = Z.min 2 (Z.of_nat (String.length w))).
Proof.
  assert (TrieOps.getAllWords (trie Samples.ca_lexicon) <> ∅) as Hne
    by (by vm_compute).
  assert (1 <= 2)%Z as Hl by lia.
  assert (Lex.GeneratePrefixFromRandomWord Samples.ca_lexicon 2 false [0%nat]
          = Returned "ca" []) as Hrun by (by vm_compute).
  split; [exact Hne|]. split; [exact Hl|]. split; [exact Hrun|].
  exact (generated_prefix_shape Samples.ca_lexicon 2 false [0%nat] "ca" []
           Hne Hl Hrun).
Defined.

Lemma getRandomPrefix_member_witness :
  ["ca"; "do"] <> [] /\
  exists p, p ∈ ["ca"; "do"] /\
            Lex.getRandomPrefix ["ca"; "do"] [7%nat] = (Returned p [], []).
Proof.
  assert (["ca"; "do"] <> ([] : list string)) as Hne by discriminate.
  split; [exact Hne|].
  exact (getRandomPrefix_member ["ca"; "do"] 7 [] Hne).
Defined.

Section GeneratorSound.

Variable lex : Lexicon.
Variables (length : Z) (Randomize : bool).

Hypothesis no_short_word :
  forall w, w ∈ TrieOps.getAllWords (trie lex) -> (2 <= String.length w)%nat.

(** Without short words in the dictionary the loop never tests the
    candidate it was entered with. *)
Lemma generate_loop_derived draws :
  forall candidate p rest,
    Lex.generate_loop lex length Randomize candidate draws = Returned p rest ->
    exists w, w ∈ TrieOps.getAllWords (trie lex) /\
              candidate_of length Randomize w p.
Proof.
  induction draws as [draws IH] using (induction_ltof1 _ (@List.length nat)).
  unfold ltof in IH. intros candidate p rest.
  destruct draws as [|r1 draws1]; [done|]. cbn [Lex.generate_loop].
  destruct (_ !! _) as [randomWord|] eqn:Hw; [|done].
  apply list_elem_of_lookup_2, elem_of_elements in Hw.
  pose proof (no_short_word _ Hw) as Hlen.
  destruct (Nat.ltb_spec (String.length randomWord) 2) as [|_]; [lia|].
  destruct Randomize.
  - destruct draws1 as [|r2 draws2]; [done|].
    destruct (length =? 0)%Z; [done|].
    destruct (Lex.CheckPrefixHasMinimumWords lex _ 20).
    + intros [= <- _]. exists randomWord. split; [done|]. split; [done|].
      eexists. split; [by exists r2|done].
    + apply IH. simpl. lia.
  - destruct (Lex.CheckPrefixHasMinimumWords lex _ 20).
    + intros [= <- _]. exists randomWord. split; [done|]. split; [done|].
      by exists length.
    + apply IH. simpl. lia.
Qed.

End GeneratorSound.

(** X12. When no dictionary word is shorter than two characters and
    [length >= 1], every string [GeneratePrefixFromRandomWord] returns is a
    non-empty leading substring of a dictionary word, of length
    [min(length, |word|)] without [Randomize] and between 1 and that bound
    with it. *)
Theorem generated_prefix_sound
    (lex : Lexicon) (length : Z) (Randomize : bool) (draws : list nat)
    (p : string) (rest : list nat) :
  (forall w, w ∈ TrieOps.getAllWords (trie lex) -> (2 <= String.length w)%nat) ->
  (1 <= length)%Z ->
  TrieOps.getAllWords (trie lex) <> ∅ ->
  Lex.GeneratePrefixFromRandomWord lex length Randomize draws = Returned p rest ->
  exists w, w ∈ TrieOps.getAllWords (trie lex) /\ leading p w /\ p <> "" /\
    (if Randomize
     then (1 <= Z.of_nat (String.length p)
             <= Z.min length (Z.of_nat (String.length w)))%Z
     else Z.of_nat (String.length p)
          = Z.min length (Z.of_nat (String.length w))).
Proof.
  intros Hshort Hlen Hne. unfold Lex.GeneratePrefixFromRandomWord.
  rewrite decide_False by done. intros Hrun.
  destruct (generate_loop_derived lex length Randomize Hshort _ _ _ _ Hrun)
    as (w & Hw & Hc).
  exists w. split; [done|]. by apply candidate_of_spec.
Qed.

Lemma generated_prefix_sound_witness :
  (forall w, w ∈ TrieOps.getAllWords (trie Samples.ca_lexicon) ->
             (2 <= String.length w)%nat) /\
  (1 <= 2)%Z /\
  TrieOps.getAllWords (trie Samples.ca_lexicon) <> ∅ /\
  Lex.GeneratePrefixFromRandomWord Samples.ca_lexicon 2 false [0%nat]
    = Returned "ca" [] /\
  exists w, w ∈ TrieOps.getAllWords (trie Samples.ca_lexicon) /\
    leading "ca" w /\ "ca" <> "" /\
    Z.of_nat (String.length "ca") = Z.min 2 (Z.of_nat (String.length w)).
Proof.
  assert (forall w, w ∈ TrieOps.getAllWords (trie Samples.ca_lexicon) ->
                    (2 <= String.length w)%nat) as Hshort.
  { intros w Hw. apply elem_of_elements in Hw. revert w Hw.
    apply Forall_forall. vm_compute. repeat constructor. }
  assert (1 <= 2)%Z as Hl by lia.
  assert (TrieOps.getAllWords (trie Samples.ca_lexicon) <> ∅) as Hne
    by (by vm_compute).
  assert (Lex.GeneratePrefixFromRandomWord Samples.ca_lexicon 2 false [0%nat]
          = Returned "ca" []) as Hrun by (by vm_compute).
  split; [exact Hshort|]. split; [exact Hl|]. split; [exact Hne|].
  split; [exact Hrun|].
  exact (generated_prefix_sound Samples.ca_lexicon 2 false [0%nat] "ca" []
           Hshort Hl Hne Hrun).
Defined.

(** X13. With [Randomize] and [length] 0 the generator computes
    [rand() % 0] as soon as it samples a word of at least two characters:
    the call has no defined behaviour. *)
Theorem generate_randomize_length_zero
    (lex : Lexicon) (r1 r2 : nat) (rest : list nat) (w : string) :
  elements (TrieOps.getAllWords (trie lex))
    !! (r1 mod List.length (elements (TrieOps.getAllWords (trie lex))))%nat
    = Some w ->
  (2 <= String.length w)%nat ->
  Lex.GeneratePrefixFromRandomWord lex 0 true (r1 :: r2 :: rest) = Undefined.
Proof.
  intros Hw Hlen. unfold Lex.GeneratePrefixFromRandomWord.
  rewrite decide_False.
  - cbn [Lex.generate_loop]. rewrite Hw.
    by destruct (Nat.ltb_spec (String.length w) 2); [lia|].
  - intros E. rewrite E, elements_empty in Hw. by destruct (r1 mod _)%nat.
Qed.

Lemma generate_randomize_length_zero_witness :
  elements (TrieOps.getAllWords (trie Samples.cat_lexicon))
    !! (0 mod List.length
                (elements (TrieOps.getAllWords (trie Samples.cat_lexicon))))%nat
    = Some "cart" /\
  (2 <= String.length "cart")%nat /\
  Lex.GeneratePrefixFromRandomWord Samples.cat_lexicon 0 true [0%nat; 5%nat]
  = Undefined.
Proof.
  assert (elements (TrieOps.getAllWords (trie Samples.cat_lexicon))
            !! (0 mod List.length
                  (elements (TrieOps.getAllWords (trie Samples.cat_lexicon))))%nat
          = Some "cart") as Hw by (vm_compute; reflexivity).
  assert (2 <= String.length "cart")%nat as Hlen by (simpl; lia).
  split; [exact Hw|]. split; [exact Hlen|].
  exact (generate_randomize_length_zero Samples.cat_lexicon 0 5 [] "cart" Hw Hlen).
Defined.

(** ** What the loaders store *)

Section LoaderContent.

Lemma is_empty_spec s : Assets.is_empty s = bool_decide (s = "").
Proof. by destruct s. Qed.

Lemma load_words_spec items dw t :
  Assets.load_words items dw t
  = ((dw ++ kept_words items)%list,
     MkTrie (root (fold_left (fun t w => TrieOps.insert w t) (kept_words items) t))
            (list_to_set (kept_words items) ∪ words t)).
Proof.
  unfold kept_words. revert dw t.
  induction items as [|item rest IH]; intros dw t.
  - simpl. rewrite app_nil_r. destruct t as [r ws]. simpl. f_equal. f_equal.
    set_solver.
  - cbn [Assets.load_words fmap list_fmap]. rewrite filter_cons.
    rewrite is_empty_spec.
    destruct (decide (Assets.sanitize_word item = "")) as [E|E].
    + rewrite bool_decide_eq_true_2 by done. rewrite decide_False by tauto.
      apply IH.
    + rewrite bool_decide_eq_false_2 by done. rewrite decide_True by done.
      rewrite IH. cbn [fold_left]. rewrite <- app_assoc. simpl.
      f_equal. f_equal. unfold TrieOps.insert. simpl. set_solver.
Qed.

Lemma load_nsfw_spec items nl t :
  Assets.load_nsfw items nl t
  = ((nl ++ kept_nsfw items)%list,
     MkTrie (root (fold_left (fun t w => TrieOps.insert w t) (kept_nsfw items) t))
            (list_to_set (kept_nsfw items) ∪ words t)).
Proof.
  unfold kept_nsfw. revert nl t.
  induction items as [|item rest IH]; intros nl t.
  - simpl. rewrite app_nil_r. destruct t as [r ws]. simpl. f_equal. f_equal.
    set_solver.
  - cbn [Assets.load_nsfw fmap list_fmap]. rewrite filter_cons.
    rewrite is_empty_spec.
    destruct (decide (Assets.sanitize_nsfw item = "")) as [E|E].
    + rewrite bool_decide_eq_true_2 by done. rewrite decide_False by tauto.
      apply IH.
    + rewrite bool_decide_eq_false_2 by done. rewrite decide_True by done.
      rewrite IH. cbn [fold_left]. rewrite <- app_assoc. simpl.
      f_equal. f_equal. unfold TrieOps.insert. simpl. set_solver.
Qed.

Lemma load_prefixes_spec items pl :
  Assets.load_prefixes items pl = (pl ++ kept_prefixes items)%list.
Proof.
  unfold kept_prefixes. revert pl.
  induction items as [|item rest IH]; intros pl.
  - simpl. by rewrite app_nil_r.
  - cbn [Assets.load_prefixes fmap list_fmap]. rewrite filter_cons.
    rewrite is_empty_spec.
    destruct (decide (Assets.sanitize_prefix item = "")) as [E|E].
    + rewrite bool_decide_eq_true_2 by done. rewrite decide_False by tauto.
      apply IH.
    + rewrite bool_decide_eq_false_2 by done. rewrite decide_True by done.
      rewrite IH. by rewrite <- app_assoc.
Qed.

End LoaderContent.

Section LoadedWorld.

Lemma skip_spaces_all s :
  string_forall Chars.isspace s = true -> Str.skip_spaces s = "".
Proof.
  induction s as [|c s IH]; [done|]. simpl.
  intros [Hc Hs]%andb_true_iff. rewrite Hc. auto.
Qed.

Lemma normalize_spaces raw :
  string_forall Chars.isspace raw = true -> Lex.normalize raw = "".
Proof.
  intros H. unfold Lex.normalize, trim. by rewrite (skip_spaces_all raw H).
Qed.

Lemma string_forall_trim P s :
  string_forall P s = true -> string_forall P (trim s) = true.
Proof.
  destruct (trim_decompose s) as (a & b & E & _ & _). rewrite E at 1.
  rewrite !string_forall_app. intros H.
  apply andb_true_iff in H as [_ H]. by apply andb_true_iff in H as [H _].
Qed.

Lemma erase_quotes_clean s :
  string_forall (fun c => negb (is_char 34 c)) (Str.erase_quotes s) = true.
Proof.
  induction s as [|c s IH]; [done|]. simpl.
  destruct (nat_of_ascii c =? 34)%nat eqn:E; [done|]. simpl.
  unfold is_char at 1. by rewrite E.
Qed.

Lemma tolower_not_upper c : is_upper (Chars.tolower c) = false.
Proof. destruct c as [[] [] [] [] [] [] [] []]; reflexivity. Qed.

Lemma tolower_quote c : is_char 34 (Chars.tolower c) = is_char 34 c.
Proof. destruct c as [[] [] [] [] [] [] [] []]; reflexivity. Qed.

Lemma lower_no_upper s :
  string_forall (fun c => negb (is_upper c)) (Str.lower s) = true.
Proof.
  induction s as [|c s IH]; [done|]. simpl. by rewrite tolower_not_upper.
Qed.

Lemma lower_no_quote s :
  string_forall (fun c => negb (is_char 34 c)) (Str.lower s)
  = string_forall (fun c => negb (is_char 34 c)) s.
Proof.
  induction s as [|c s IH]; [done|]. simpl. by rewrite tolower_quote, IH.
Qed.

Lemma sanitize_word_clean item :
  Assets.sanitize_word item <> "" -> clean_word (Assets.sanitize_word item).
Proof.
  intros Hne. split; [done|]. unfold Assets.sanitize_word. split; [|split].
  - by rewrite trim_lower, trim_idem.
  - apply lower_no_upper.
  - rewrite lower_no_quote. apply string_forall_trim, erase_quotes_clean.
Qed.

Lemma kept_words_clean items w : w ∈ kept_words items -> clean_word w.
Proof.
  unfold kept_words. rewrite list_elem_of_filter, list_elem_of_fmap.
  intros (Hne & item & -> & _). by apply sanitize_word_clean.
Qed.

Lemma kept_nsfw_words items : kept_nsfw items = kept_words items.
Proof.
  unfold kept_nsfw, kept_words. f_equal. apply list_fmap_ext.
  intros _ item _. unfold Assets.sanitize_nsfw, Assets.sanitize_word, trim.
  f_equal. by destruct (Str.skip_spaces (Str.erase_quotes item)).
Qed.

Lemma fold_insert_root_search ws t v :
  Node.search v (root (fold_left (fun t w => TrieOps.insert w t) ws t)) = true
  <-> v ∈ ws \/ Node.search v (root t) = true.
Proof.
  revert t. induction ws as [|w ws IH]; intros t; simpl.
  - split; [by right|]. intros [H|H]; [|done]. by apply not_elem_of_nil in H.
  - rewrite IH. unfold TrieOps.insert. simpl. rewrite search_insert.
    rewrite elem_of_cons. destruct (decide (v = w)); naive_solver.
Qed.

Variable files : Files.
Variables wordFilename prefixFilename nsfwFilename : string.

(** The world the first [Initialize] leaves, written out. *)
Lemma Initialize_first_spec w0 :
  instance w0 = None ->
  Singleton.Initialize files wordFilename prefixFilename nsfwFilename w0
  = Some
      (MkWorld
         (Some (MkLexicon
            (match files wordFilename "words" with
             | Some items => (Assets.load_words items [] TrieOps.new).2
             | None => TrieOps.new
             end)
            (match files nsfwFilename "nsfw" with
             | Some items => (Assets.load_nsfw items [] TrieOps.new).2
             | None => TrieOps.new
             end)))
         (MkAssets
            (match files wordFilename "words" with
             | Some items => (Assets.load_words items [] TrieOps.new).1
             | None => dictionaryWords (assets w0)
             end)
            (match files prefixFilename "prefixes" with
             | Some items => Assets.load_prefixes items []
             | None => prefixList (assets w0)
             end)
            (match files nsfwFilename "nsfw" with
             | Some items => (Assets.load_nsfw items [] TrieOps.new).1
             | None => nsfwList (assets w0)
             end))).
Proof.
  intros H0. unfold Singleton.Initialize. rewrite H0.
  unfold Assets.UE_LoadDictionary, Assets.UE_LoadPrefixes, Assets.UE_LoadNSFW.
  destruct w0 as [i [dw pl nl]]. simpl.
  destruct (files wordFilename "words") as [wi|]; simpl;
    [destruct (Assets.load_words wi [] TrieOps.new) as [dw' t']|]; simpl;
    (destruct (files prefixFilename "prefixes") as [pi|]; simpl;
     (destruct (files nsfwFilename "nsfw") as [ni|]; simpl;
      [destruct (Assets.load_nsfw ni [] _) as [nl' n']|]; done)).
Qed.

End LoadedWorld.

(** X15. After the first [Initialize] with a readable dictionary file, the
    list [GetDictionaryAssets] returns and the word set of the dictionary
    trie both hold the sanitized, non-empty items of the file, and
    [checkUserWord raw] is true exactly when the normalised [raw] is one of
    them. *)
Theorem checkUserWord_iff_loaded
    (files : Files) (wordFilename prefixFilename nsfwFilename : string)
    (items : list string) (w0 w : World) (lex : Lexicon) :
  instance w0 = None ->
  files wordFilename "words" = Some items ->
  Singleton.Initialize files wordFilename prefixFilename nsfwFilename w0
    = Some w ->
  instance w = Some lex ->
  dictionaryWords (assets w) = kept_words items /\
  TrieOps.getAllWords (trie lex) = list_to_set (kept_words items) /\
  (forall raw, Lex.checkUserWord lex raw = true <->
               Lex.normalize raw ∈ kept_words items).
Proof.
  intros H0 Hf Hinit Hlex.
  rewrite Initialize_first_spec in Hinit by done. rewrite Hf in Hinit.
  rewrite load_words_spec in Hinit. injection Hinit as <-.
  injection Hlex as <-. simpl. split; [done|]. split; [set_solver|].
  intros raw. unfold Lex.checkUserWord, TrieOps.search. simpl.
  destruct (Node.search _ _) eqn:E.
  - apply fold_insert_root_search in E as [E|E]; [done|].
    by rewrite search_new_node in E.
  - split; [done|]. intros Hin.
    assert (Node.search (Lex.normalize raw)
              (root (fold_left (fun t w => TrieOps.insert w t)
                       (kept_words items) TrieOps.new)) = true) as E'
      by (apply fold_insert_root_search; by left).
    congruence.
Qed.

Lemma checkUserWord_iff_loaded_witness :
  instance Singleton.start = None /\
  Samples.sample_files "Dictionary.json" "words" = Some [" Cat"; "dog "; "  "] /\
  Singleton.Initialize Samples.sample_files "Dictionary.json" "Prefixes.json"
    "NSFW.json" Singleton.start = Some Samples.loaded_world /\
  instance Samples.loaded_world = Some Samples.loaded_lexicon /\
  dictionaryWords (assets Samples.loaded_world)
  = kept_words [" Cat"; "dog "; "  "].
Proof.
  assert (instance Singleton.start = None) as H0 by reflexivity.
  assert (Samples.sample_files "Dictionary.json" "words"
          = Some [" Cat"; "dog "; "  "]) as Hf by reflexivity.
  assert (Singleton.Initialize Samples.sample_files "Dictionary.json"
            "Prefixes.json" "NSFW.json" Singleton.start
          = Some Samples.loaded_world) as H1 by (vm_compute; reflexivity).
  assert (instance Samples.loaded_world = Some Samples.loaded_lexicon) as H2
    by (vm_compute; reflexivity).
  split; [exact H0|]. split; [exact Hf|]. split; [exact H1|].
  split; [exact H2|].
  exact (proj1 (checkUserWord_iff_loaded Samples.sample_files "Dictionary.json"
                  "Prefixes.json" "NSFW.json" [" Cat"; "dog "; "  "]
                  Singleton.start Samples.loaded_world Samples.loaded_lexicon
                  H0 Hf H1 H2)).
Defined.

(** X16. After the first [Initialize] with a readable profanity file, the
    list [GetNSFWAssets] returns and the word set of the profanity trie
    both hold the sanitized, non-empty items of the file, and
    [isNsfwWord raw] is true exactly when the normalised [raw] is one of
    them. *)
Theorem isNsfwWord_iff_loaded
    (files : Files) (wordFilename prefixFilename nsfwFilename : string)
    (items : list string) (w0 w : World) (lex : Lexicon) :
  instance w0 = None ->
  files nsfwFilename "nsfw" = Some items ->
  Singleton.Initialize files wordFilename prefixFilename nsfwFilename w0
    = Some w ->
  instance w = Some lex ->
  nsfwList (assets w) = kept_nsfw items /\
  TrieOps.getAllWords (nsfwTrie lex) = list_to_set (kept_nsfw items) /\
  (forall raw, Lex.isNsfwWord lex raw = true <->
               Lex.normalize raw ∈ kept_nsfw items).
Proof.
  intros H0 Hf Hinit Hlex.
  rewrite Initialize_first_spec in Hinit by done. rewrite Hf in Hinit.
  rewrite load_nsfw_spec in Hinit. injection Hinit as <-.
  injection Hlex as <-. simpl. split; [done|]. split; [set_solver|].
  intros raw. unfold Lex.isNsfwWord, TrieOps.search. simpl.
  rewrite fold_insert_root_search, search_new_node. naive_solver.
Qed.

Lemma isNsfwWord_iff_loaded_witness :
  instance Singleton.start = None /\
  Samples.sample_files "NSFW.json" "nsfw" = Some [" Darn "; "DOG"; "heck"] /\
  Singleton.Initialize Samples.sample_files "Dictionary.json" "Prefixes.json"
    "NSFW.json" Singleton.start = Some Samples.loaded_world /\
  instance Samples.loaded_world = Some Samples.loaded_lexicon /\
  nsfwList (assets Samples.loaded_world)
  = kept_nsfw [" Darn "; "DOG"; "heck"].
Proof.
  assert (instance Singleton.start = None) as H0 by reflexivity.
  assert (Samples.sample_files "NSFW.json" "nsfw"
          = Some [" Darn "; "DOG"; "heck"]) as Hf by reflexivity.
  assert (Singleton.Initialize Samples.sample_files "Dictionary.json"
            "Prefixes.json" "NSFW.json" Singleton.start
          = Some Samples.loaded_world) as H1 by (vm_compute; reflexivity).
  assert (instance Samples.loaded_world = Some Samples.loaded_lexicon) as H2
    by (vm_compute; reflexivity).
  split; [exact H0|]. split; [exact Hf|]. split; [exact H1|].
  split; [exact H2|].
  exact (proj1 (isNsfwWord_iff_loaded Samples.sample_files "Dictionary.json"
                  "Prefixes.json" "NSFW.json" [" Darn "; "DOG"; "heck"]
                  Singleton.start Samples.loaded_world Samples.loaded_lexicon
                  H0 Hf H1 H2)).
Defined.

Section LoadedTries.

Variable files : Files.
Variables wordFilename prefixFilename nsfwFilename : string.

(** The word sets of the two tries after the first [Initialize]. *)
Lemma Initialize_first_sets w0 w lex :
  instance w0 = None ->
  Singleton.Initialize files wordFilename prefixFilename nsfwFilename w0
    = Some w ->
  instance w = Some lex ->
  words (trie lex)
  = list_to_set (kept_words (default [] (files wordFilename "words"))) /\
  words (nsfwTrie lex)
  = list_to_set (kept_words (default [] (files nsfwFilename "nsfw"))).
Proof.
  intros H0 Hinit Hlex. rewrite Initialize_first_spec in Hinit by done.
  injection Hinit as <-. injection Hlex as <-. simpl. split.
  - destruct (files wordFilename "words"); simpl; [|done].
    rewrite load_words_spec. simpl. set_solver.
  - destruct (files nsfwFilename "nsfw"); simpl; [|done].
    rewrite load_nsfw_spec, kept_nsfw_words. simpl. set_solver.
Qed.

Lemma Initialize_first_clean w0 w lex x :
  instance w0 = None ->
  Singleton.Initialize files wordFilename prefixFilename nsfwFilename w0
    = Some w ->
  instance w = Some lex ->
  x ∈ words (trie lex) \/ x ∈ words (nsfwTrie lex) ->
  clean_word x.
Proof.
  intros H0 Hinit Hlex Hx.
  destruct (Initialize_first_sets w0 w lex H0 Hinit Hlex) as [Ed En].
  rewrite Ed, En in Hx.
  destruct Hx as [Hx|Hx]; apply elem_of_list_to_set in Hx;
    by apply kept_words_clean in Hx.
Qed.

Lemma Initialize_first_synchronized w0 w lex :
  instance w0 = None ->
  Singleton.Initialize files wordFilename prefixFilename nsfwFilename w0
    = Some w ->
  instance w = Some lex ->
  synchronized (trie lex) /\ synchronized (nsfwTrie lex).
Proof.
  intros H0 Hinit Hlex.
  destruct (Initialize_first files wordFilename prefixFilename nsfwFilename w0 H0)
    as (w' & Hw' & lex' & Hl' & [Hd _] & [Hn _]).
  assert (w' = w) as -> by congruence.
  assert (lex' = lex) as -> by congruence. done.
Qed.

End LoadedTries.

Lemma prefix_forall P p w :
  String.prefix p w = true ->
  string_forall P w = true -> string_forall P p = true.
Proof.
  revert w. induction p as [|a p IH]; intros w; [done|].
  destruct w as [|b w]; [done|]. rewrite prefix_cons.
  destruct (decide (a = b)) as [->|]; [|done]. simpl.
  intros Hp [Hb Hw]%andb_true_iff. rewrite Hb. eauto.
Qed.

(** X17. In the lexicon the first [Initialize] has filled, an input that
    is empty or consists of white space only is rejected by
    [checkUserWord] and by [isNsfwWord]: the loaders never store the empty
    word. *)
Theorem blank_input_rejected
    (files : Files) (wordFilename prefixFilename nsfwFilename : string)
    (w0 w : World) (lex : Lexicon) (raw : string) :
  instance w0 = None ->
  Singleton.Initialize files wordFilename prefixFilename nsfwFilename w0
    = Some w ->
  instance w = Some lex ->
  string_forall Chars.isspace raw = true ->
  Lex.checkUserWord lex raw = false /\ Lex.isNsfwWord lex raw = false.
Proof.
  intros H0 Hinit Hlex Hraw.
  destruct (Initialize_first_synchronized _ _ _ _ _ _ _ H0 Hinit Hlex)
    as [Hd Hn].
  pose proof (fun x => Initialize_first_clean _ _ _ _ _ _ _ x H0 Hinit Hlex)
    as Hclean.
  unfold Lex.checkUserWord, Lex.isNsfwWord.
  rewrite (normalize_spaces raw Hraw). split.
  - destruct (TrieOps.search "" (trie lex)) eqn:E; [|done].
    apply Hd in E. by destruct (Hclean "" (or_introl E)) as [? _].
  - destruct (TrieOps.search "" (nsfwTrie lex)) eqn:E; [|done].
    apply Hn in E. by destruct (Hclean "" (or_intror E)) as [? _].
Qed.

Lemma blank_input_rejected_witness :
  instance Singleton.start = None /\
  Singleton.Initialize Samples.sample_files "Dictionary.json" "Prefixes.json"
    "NSFW.json" Singleton.start = Some Samples.loaded_world /\
  instance Samples.loaded_world = Some Samples.loaded_lexicon /\
  string_forall Chars.isspace "   " = true /\
  Lex.checkUserWord Samples.loaded_lexicon "   " = false /\
  Lex.isNsfwWord Samples.loaded_lexicon "   " = false.
Proof.
  assert (instance Singleton.start = None) as H0 by reflexivity.
  assert (Singleton.Initialize Samples.sample_files "Dictionary.json"
            "Prefixes.json" "NSFW.json" Singleton.start
          = Some Samples.loaded_world) as H1 by (vm_compute; reflexivity).
  assert (instance Samples.loaded_world = Some Samples.loaded_lexicon) as H2
    by (vm_compute; reflexivity).
  assert (string_forall Chars.isspace "   " = true) as H3 by reflexivity.
  split; [exact H0|]. split; [exact H1|]. split; [exact H2|].
  split; [exact H3|].
  exact (blank_input_rejected Samples.sample_files "Dictionary.json"
           "Prefixes.json" "NSFW.json" Singleton.start Samples.loaded_world
           Samples.loaded_lexicon "   " H0 H1 H2 H3).
Defined.

(** X18. Every word the first [Initialize] puts into the dictionary trie or
    into the profanity trie is not empty, has no white space at its ends,
    no upper-case letter and no double quote: [insert] is only ever handed
    normalised words. *)
Theorem loaded_words_are_clean
    (files : Files) (wordFilename prefixFilename nsfwFilename : string)
    (w0 w : World) (lex : Lexicon) (x : string) :
  instance w0 = None ->
  Singleton.Initialize files wordFilename prefixFilename nsfwFilename w0
    = Some w ->
  instance w = Some lex ->
  x ∈ TrieOps.getAllWords (trie lex) \/ x ∈ TrieOps.getAllWords (nsfwTrie lex) ->
  clean_word x /\ Lex.normalize x = x.
Proof.
  intros H0 Hinit Hlex Hx.
  pose proof (Initialize_first_clean _ _ _ _ _ _ _ x H0 Hinit Hlex Hx)
    as Hclean.
  split; [done|].
  destruct (Initialize_first files wordFilename prefixFilename nsfwFilename w0 H0)
    as (w' & Hw' & lex' & Hl' & [_ Hd] & [_ Hn]).
  assert (w' = w) as -> by congruence.
  assert (lex' = lex) as -> by congruence.
  destruct Hx; auto.
Qed.

Lemma loaded_words_are_clean_witness :
  instance Singleton.start = None /\
  Singleton.Initialize Samples.sample_files "Dictionary.json" "Prefixes.json"
    "NSFW.json" Singleton.start = Some Samples.loaded_world /\
  instance Samples.loaded_world = Some Samples.loaded_lexicon /\
  ("cat" ∈ TrieOps.getAllWords (trie Samples.loaded_lexicon) \/
   "cat" ∈ TrieOps.getAllWords (nsfwTrie Samples.loaded_lexicon)) /\
  clean_word "cat" /\ Lex.normalize "cat" = "cat".
Proof.
  assert (instance Singleton.start = None) as H0 by reflexivity.
  assert (Singleton.Initialize Samples.sample_files "Dictionary.json"
            "Prefixes.json" "NSFW.json" Singleton.start
          = Some Samples.loaded_world) as H1 by (vm_compute; reflexivity).
  assert (instance Samples.loaded_world = Some Samples.loaded_lexicon) as H2
    by (vm_compute; reflexivity).
  assert ("cat" ∈ TrieOps.getAllWords (trie Samples.loaded_lexicon) \/
          "cat" ∈ TrieOps.getAllWords (nsfwTrie Samples.loaded_lexicon)) as H3
    by (left; apply (bool_decide_unpack _); vm_compute; exact I).
  split; [exact H0|]. split; [exact H1|]. split; [exact H2|].
  split; [exact H3|].
  exact (loaded_words_are_clean Samples.sample_files "Dictionary.json"
           "Prefixes.json" "NSFW.json" Singleton.start Samples.loaded_world
           Samples.loaded_lexicon "cat" H0 H1 H2 H3).
Defined.

(** X19. The loader lowercases dictionary words, and a prefix is matched
    character by character: in the lexicon the first [Initialize] has
    filled, a prefix that holds an upper-case letter has no completion,
    and [CheckPrefixHasMinimumWords] rejects it for every threshold. *)
Theorem uppercase_prefix_has_no_completion
    (files : Files) (wordFilename prefixFilename nsfwFilename : string)
    (w0 w : World) (lex : Lexicon) (p : string) (k : Z) :
  instance w0 = None ->
  Singleton.Initialize files wordFilename prefixFilename nsfwFilename w0
    = Some w ->
  instance w = Some lex ->
  string_forall (fun c => negb (is_upper c)) p = false ->
  prefix_count lex p = 0%nat /\
  Lex.CheckPrefixHasMinimumWords lex p k = false.
Proof.
  intros H0 Hinit Hlex Hp.
  assert (prefix_count lex p = 0%nat) as Hc.
  { unfold prefix_count. apply size_empty_iff, elem_of_equiv_empty.
    intros x [Hl Hx]%elem_of_filter.
    destruct (Initialize_first_clean _ _ _ _ _ _ _ x H0 Hinit Hlex
                (or_introl Hx)) as (_ & _ & Hup & _).
    apply String.prefix_correct in Hl.
    rewrite (prefix_forall _ _ _ Hl Hup) in Hp. done. }
  split; [done|].
  destruct (Lex.CheckPrefixHasMinimumWords lex p k) eqn:E; [|done].
  apply check_spec in E. lia.
Qed.

Lemma uppercase_prefix_has_no_completion_witness :
  instance Singleton.start = None /\
  Singleton.Initialize Samples.sample_files "Dictionary.json" "Prefixes.json"
    "NSFW.json" Singleton.start = Some Samples.loaded_world /\
  instance Samples.loaded_world = Some Samples.loaded_lexicon /\
  string_forall (fun c => negb (is_upper c)) "Ca" = false /\
  prefix_count Samples.loaded_lexicon "Ca" = 0%nat /\
  Lex.CheckPrefixHasMinimumWords Samples.loaded_lexicon "Ca" 1 = false.
Proof.
  assert (instance Singleton.start = None) as H0 by reflexivity.
  assert (Singleton.Initialize Samples.sample_files "Dictionary.json"
            "Prefixes.json" "NSFW.json" Singleton.start
          = Some Samples.loaded_world) as H1 by (vm_compute; reflexivity).
  assert (instance Samples.loaded_world = Some Samples.loaded_lexicon) as H2
    by (vm_compute; reflexivity).
  assert (string_forall (fun c => negb (is_upper c)) "Ca" = false) as H3
    by reflexivity.
  split; [exact H0|]. split; [exact H1|]. split; [exact H2|].
  split; [exact H3|].
  exact (uppercase_prefix_has_no_completion Samples.sample_files
           "Dictionary.json" "Prefixes.json" "NSFW.json" Singleton.start
           Samples.loaded_world Samples.loaded_lexicon "Ca" 1 H0 H1 H2 H3).
Defined.

(** X20. [UE_LoadDictionary] on a world that has its instance replaces the
    list [dictionaryWords] by the words of the file, but only adds to the
    dictionary trie: every word that was found before is still found, and
    the profanity trie and the other two lists are untouched. *)
Theorem reload_keeps_old_words
    (files : Files) (fileName : string) (items : list string)
    (w : World) (lex : Lexicon) :
  instance w = Some lex ->
  files fileName "words" = Some items ->
  exists w' lex',
    Assets.UE_LoadDictionary files fileName w = Some w' /\
    instance w' = Some lex' /\
    dictionaryWords (assets w') = kept_words items /\
    TrieOps.getAllWords (trie lex')
    = list_to_set (kept_words items) ∪ TrieOps.getAllWords (trie lex) /\
    (forall v, TrieOps.search v (trie lex') = true <->
               v ∈ kept_words items \/ TrieOps.search v (trie lex) = true) /\
    nsfwTrie lex' = nsfwTrie lex /\
    prefixList (assets w') = prefixList (assets w) /\
    nsfwList (assets w') = nsfwList (assets w).
Proof.
  intros Hi Hf. unfold Assets.UE_LoadDictionary. rewrite Hf, Hi. simpl.
  unfold Lex.GetTrie. rewrite load_words_spec.
  eexists _, _. split; [done|]. split; [done|]. simpl.
  split; [done|]. split; [done|]. split; [|done].
  intros v. unfold TrieOps.search. simpl. apply fold_insert_root_search.
Qed.

Lemma reload_keeps_old_words_witness :
  instance Samples.loaded_world = Some Samples.loaded_lexicon /\
  (fun (_ _ : string) => Some ["bird"]) "Other.json" "words" = Some ["bird"] /\
  exists w' lex',
    Assets.UE_LoadDictionary (fun _ _ => Some ["bird"]) "Other.json"
      Samples.loaded_world = Some w' /\
    instance w' = Some lex' /\
    dictionaryWords (assets w') = kept_words ["bird"] /\
    TrieOps.getAllWords (trie lex')
    = list_to_set (kept_words ["bird"])
      ∪ TrieOps.getAllWords (trie Samples.loaded_lexicon).
Proof.
  assert (instance Samples.loaded_world = Some Samples.loaded_lexicon) as H1
    by (vm_compute; reflexivity).
  assert ((fun (_ _ : string) => Some ["bird"]) "Other.json" "words"
          = Some ["bird"]) as H2 by reflexivity.
  split; [exact H1|]. split; [exact H2|].
  destruct (reload_keeps_old_words (fun _ _ => Some ["bird"]) "Other.json"
              ["bird"] Samples.loaded_world Samples.loaded_lexicon H1 H2)
    as (w' & lex' & Ha & Hb & Hc & Hd & _).
  exists w', lex'. repeat split; assumption.
Defined.

(** X21. After the first [Initialize] with a readable prefix file the
    curated prefix list holds the items of the file, in their order and
    with their repetitions, each stripped of double quotes and trimmed,
    the empty ones dropped; the letters keep their case. *)
Theorem loaded_prefixes
    (files : Files) (wordFilename prefixFilename nsfwFilename : string)
    (items : list string) (w0 w : World) :
  instance w0 = None ->
  files prefixFilename "prefixes" = Some items ->
  Singleton.Initialize files wordFilename prefixFilename nsfwFilename w0
    = Some w ->
  prefixList (assets w) = kept_prefixes items /\
  Forall (fun p => p <> "" /\ trim p = p /\
                   string_forall (fun c => negb (is_char 34 c)) p = true)
         (prefixList (assets w)).
Proof.
  intros H0 Hf Hinit. rewrite Initialize_first_spec in Hinit by done.
  injection Hinit as <-. simpl. rewrite Hf, load_prefixes_spec. simpl.
  split; [done|]. apply Forall_forall. intros p. unfold kept_prefixes.
  rewrite list_elem_of_filter, list_elem_of_fmap.
  intros (Hne & item & -> & _). split; [done|].
  unfold Assets.sanitize_prefix. split; [apply trim_idem|].
  apply string_forall_trim, erase_quotes_clean.
Qed.

Lemma loaded_prefixes_witness :
  instance Singleton.start = None /\
  Samples.sample_files "Prefixes.json" "prefixes" = Some ["ca"; " do"] /\
  Singleton.Initialize Samples.sample_files "Dictionary.json" "Prefixes.json"
    "NSFW.json" Singleton.start = Some Samples.loaded_world /\
  prefixList (assets Samples.loaded_world) = kept_prefixes ["ca"; " do"].
Proof.
  assert (instance Singleton.start = None) as H0 by reflexivity.
  assert (Samples.sample_files "Prefixes.json" "prefixes"
          = Some ["ca"; " do"]) as Hf by reflexivity.
  assert (Singleton.Initialize Samples.sample_files "Dictionary.json"
            "Prefixes.json" "NSFW.json" Singleton.start
          = Some Samples.loaded_world) as H1 by (vm_compute; reflexivity).
  split; [exact H0|]. split; [exact Hf|]. split; [exact H1|].
  exact (proj1 (loaded_prefixes Samples.sample_files "Dictionary.json"
                  "Prefixes.json" "NSFW.json" ["ca"; " do"] Singleton.start
                  Samples.loaded_world H0 Hf H1)).
Defined.

(** X22. After [Initialize], from whatever world it is called, [GetInstance]
    returns an instance and writes no diagnostic. *)
Theorem GetInstance_after_Initialize
    (files : Files) (wordFilename prefixFilename nsfwFilename : string)
    (w0 w : World) :
  Singleton.Initialize files wordFilename prefixFilename nsfwFilename w0
    = Some w ->
  exists lex, Singleton.GetInstance w = (Some lex, []).
Proof.
  intros Hinit.
  destruct (Initialize_returns files wordFilename prefixFilename nsfwFilename w0)
    as (w' & Hw' & Hi).
  assert (w' = w) as -> by congruence.
  unfold Singleton.GetInstance. destruct (instance w) as [lex|]; [|done].
  by exists lex.
Qed.

Lemma GetInstance_after_Initialize_witness :
  Singleton.Initialize Samples.sample_files "Dictionary.json" "Prefixes.json"
    "NSFW.json" Singleton.start = Some Samples.loaded_world /\
  exists lex, Singleton.GetInstance Samples.loaded_world = (Some lex, []).
Proof.
  assert (Singleton.Initialize Samples.sample_files "Dictionary.json"
            "Prefixes.json" "NSFW.json" Singleton.start
          = Some Samples.loaded_world) as H1 by (vm_compute; reflexivity).
  split; [exact H1|].
  exact (GetInstance_after_Initialize Samples.sample_files "Dictionary.json"
           "Prefixes.json" "NSFW.json" Singleton.start Samples.loaded_world H1).
Defined.

(** ** Reading the array of a file *)

Section ReaderFacts.

Lemma length_append (a b : string) :
  String.length (a ++ b) = (String.length a + String.length b)%nat.
Proof. induction a as [|c a IH]; [done|]. rewrite append_cons. simpl. by rewrite IH. Qed.

Lemma index_succ n needle b s :
  String.index (S n) needle (String b s) = S <$> String.index n needle s.
Proof. simpl. by destruct (String.index n needle s). Qed.

Lemma index_char_zero c b s :
  String.index 0 (String c "") (String b s)
  = if decide (c = b) then Some 0%nat
    else S <$> String.index 0 (String c "") s.
Proof.
  cbn [String.index]. rewrite prefix_cons, prefix_nil.
  destruct (decide (c = b)); [done|].
  by destruct (String.index 0 (String c "") s).
Qed.

Lemma index_char_empty n c : String.index n (String c "") "" = None.
Proof. by destruct n. Qed.

(** [find] of a character from [n] on yields the first position at or
    after [n] that holds it. *)
Lemma index_char_spec c s : forall n m,
  String.index n (String c "") s = Some m ->
  (n <= m)%nat /\ String.get m s = Some c /\
  forall p, (n <= p < m)%nat -> String.get p s <> Some c.
Proof.
  induction s as [|b s IH]; intros n m; [by rewrite index_char_empty|].
  destruct n as [|n].
  - rewrite index_char_zero. destruct (decide (c = b)) as [->|Hne].
    + intros [= <-]. split; [lia|]. split; [done|]. intros p ?. lia.
    + destruct (String.index 0 (String c "") s) as [m'|] eqn:E; [|done].
      intros [= <-]. destruct (IH 0%nat m' E) as (_ & Hg & Hmin).
      split; [lia|]. split; [done|]. intros [|p] Hp; simpl.
      * congruence.
      * apply Hmin. lia.
  - rewrite index_succ.
    destruct (String.index n (String c "") s) as [m'|] eqn:E; [|done].
    intros [= <-]. destruct (IH n m' E) as (Hle & Hg & Hmin).
    split; [lia|]. split; [done|]. intros [|p] Hp; [lia|]. simpl.
    apply Hmin. lia.
Qed.

Lemma get_split s : forall n c,
  String.get n s = Some c ->
  exists pre post, s = pre ++ String c post /\ String.length pre = n.
Proof.
  induction s as [|b s IH]; intros n c; [done|]. destruct n as [|n]; simpl.
  - intros [= ->]. by exists "", s.
  - intros (pre & post & -> & <-)%IH. by exists (String b pre), post.
Qed.

Lemma get_append_r (pre s : string) n :
  String.get (String.length pre + n) (pre ++ s) = String.get n s.
Proof. induction pre as [|b pre IH]; [done|]. by rewrite append_cons. Qed.

Lemma get_append_l (u v : string) i c :
  String.get i u = Some c -> String.get i (u ++ v) = Some c.
Proof.
  revert i. induction u as [|b u IH]; intros i; [done|].
  rewrite append_cons. destruct i; simpl; auto.
Qed.

Lemma substring_skip (pre s : string) m :
  String.substring (String.length pre) m (pre ++ s) = String.substring 0 m s.
Proof.
  induction pre as [|b pre IH]; [done|]. rewrite append_cons. simpl.
  exact IH.
Qed.

Lemma substring_take (u v : string) :
  String.substring 0 (String.length u) (u ++ v) = u.
Proof.
  induction u as [|b u IH]; [by destruct v|]. rewrite append_cons. simpl.
  by rewrite IH.
Qed.

Lemma lacks_get c s :
  lacks c s = true <-> forall i, String.get i s <> Some c.
Proof.
  unfold lacks. induction s as [|b s IH]; simpl; [done|].
  rewrite andb_true_iff, IH, negb_true_iff, Ascii.eqb_neq. split.
  - intros [Hb Hs] [|i]; [congruence|apply Hs].
  - intros H. split; [intros ->; by apply (H 0%nat)|].
    intros i. apply (H (S i)).
Qed.

(** The search from the end of [u] passes over a text without [c] and
    stops at the [c] that follows it. *)
Lemma index_char_skip c (u v w : string) :
  lacks c v = true ->
  String.index (String.length u) (String c "") (u ++ v ++ String c w)
  = Some (String.length u + String.length v)%nat.
Proof.
  intros Hv. induction u as [|b u IH].
  - rewrite append_nil. simpl String.length. clear -Hv.
    induction v as [|b v IH].
    + rewrite append_nil, index_char_zero. by rewrite decide_True.
    + rewrite append_cons, index_char_zero. unfold lacks in *. simpl in Hv.
      apply andb_true_iff in Hv as [Hb Hv].
      apply negb_true_iff, Ascii.eqb_neq in Hb.
      rewrite decide_False by congruence. by rewrite (IH Hv).
  - rewrite append_cons. cbn [String.length]. rewrite index_succ, IH. done.
Qed.

End ReaderFacts.

(** X23. What [array_content] returns stands in the file between an
    opening and a closing bracket, and holds no closing bracket itself: the
    array ends at the first closing bracket after its opening one. *)
Theorem array_content_is_bracketed (key jsonString content : string) :
  Reader.array_content key jsonString = Some content ->
  lacks "]" content = true /\
  exists pre post,
    jsonString = pre ++ String "[" (content ++ String "]" post).
Proof.
  unfold Reader.array_content, Reader.find_from.
  destruct (Str.find _ _) as [keyPos|]; [|done].
  destruct (String.index keyPos "[" jsonString) as [a|] eqn:Ea; [|done].
  destruct (String.index a "]" jsonString) as [e|] eqn:Ee; [|done].
  intros [= <-].
  destruct (index_char_spec _ _ _ _ Ea) as (_ & Hga & _).
  destruct (index_char_spec _ _ _ _ Ee) as (Hae & Hge & Hmin).
  assert (a < e)%nat as Hlt.
  { destruct (decide (a = e)) as [->|]; [congruence|lia]. }
  destruct (get_split _ _ _ Hga) as (pre & rest & -> & <-).
  assert (String.get (e - String.length pre - 1) rest = Some "]"%char) as Hd.
  { replace e with (String.length pre + S (e - String.length pre - 1))%nat
      in Hge by lia.
    by rewrite get_append_r in Hge. }
  destruct (get_split _ _ _ Hd) as (mid & post & -> & Hm).
  assert (String.substring (String.length pre + 1)
            (e - String.length pre - 1)
            (pre ++ String "[" (mid ++ String "]" post)) = mid) as ->.
  { rewrite <- Hm, Nat.add_1_r.
    clear. induction pre as [|b pre IH].
    - rewrite append_nil. simpl. change (String.substring 0 (String.length mid)
        (mid ++ String "]" post) = mid). apply substring_take.
    - rewrite append_cons. exact IH. }
  split; [|by exists pre, post].
  apply lacks_get. intros i Hi.
  apply (Hmin (String.length pre + S i)%nat).
  - destruct (get_split _ _ _ Hi) as (m1 & m2 & E & Hl).
    rewrite E, length_append in Hm. simpl in Hm. lia.
  - rewrite get_append_r. simpl. by apply get_append_l.
Qed.

Lemma array_content_is_bracketed_witness :
  Reader.array_content "words" (Reader.key_text "words" ++ " [cat, dog] ")
    = Some "cat, dog" /\
  lacks "]" "cat, dog" = true.
Proof.
  assert (Reader.array_content "words" (Reader.key_text "words" ++ " [cat, dog] ")
          = Some "cat, dog") as H by (vm_compute; reflexivity).
  split; [exact H|].
  exact (proj1 (array_content_is_bracketed "words" _ "cat, dog" H)).
Defined.

(** X24. When the key is first found at the end of [pre], no opening
    bracket stands between there and the array, and the array holds no
    closing bracket, [array_content] returns the text between the
    brackets, whatever follows the array. *)
Theorem array_content_round_trip (key pre mid content post : string) :
  Str.find (pre ++ mid ++ String "[" (content ++ String "]" post))
           (Reader.key_text key) = Some (String.length pre) ->
  lacks "[" mid = true ->
  lacks "]" content = true ->
  Reader.array_content key
    (pre ++ mid ++ String "[" (content ++ String "]" post))
  = Some content.
Proof.
  intros Hkey Hmid Hcontent. unfold Reader.array_content, Reader.find_from.
  rewrite Hkey. rewrite (index_char_skip "[" pre mid _ Hmid).
  assert (lacks "]" (String "[" content) = true) as Hv by exact Hcontent.
  pose proof (index_char_skip "]" (pre ++ mid) (String "[" content) post Hv)
    as He.
  rewrite length_append in He. rewrite append_assoc in He.
  rewrite append_cons in He. rewrite He.
  replace (String.length pre + String.length mid +
           String.length (String "[" content) -
           (String.length pre + String.length mid) - 1)%nat
    with (String.length content) by (simpl; lia).
  replace (String.length pre + String.length mid + 1)%nat
    with (String.length ((pre ++ mid) ++ "["))
    by (rewrite !length_append; simpl; lia).
  replace (pre ++ mid ++ String "[" (content ++ String "]" post))
    with (((pre ++ mid) ++ "[") ++ content ++ String "]" post)
    by (by rewrite !append_assoc).
  by rewrite substring_skip, substring_take.
Qed.

Lemma array_content_round_trip_witness :
  Str.find ("{ " ++ (Reader.key_text "words" ++ " ")
              ++ String "[" ("cat, dog" ++ String "]" " }"))
           (Reader.key_text "words") = Some (String.length "{ ") /\
  lacks "[" (Reader.key_text "words" ++ " ") = true /\
  lacks "]" "cat, dog" = true /\
  Reader.array_content "words"
    ("{ " ++ (Reader.key_text "words" ++ " ")
       ++ String "[" ("cat, dog" ++ String "]" " }"))
  = Some "cat, dog".
Proof.
  assert (Str.find ("{ " ++ (Reader.key_text "words" ++ " ")
                      ++ String "[" ("cat, dog" ++ String "]" " }"))
                   (Reader.key_text "words") = Some (String.length "{ "))
    as H1 by (vm_compute; reflexivity).
  assert (lacks "[" (Reader.key_text "words" ++ " ") = true) as H2
    by (vm_compute; reflexivity).
  assert (lacks "]" "cat, dog" = true) as H3 by (vm_compute; reflexivity).
  split; [exact H1|]. split; [exact H2|]. split; [exact H3|].
  exact (array_content_round_trip "words" "{ " (Reader.key_text "words" ++ " ")
           "cat, dog" " }" H1 H2 H3).
Defined.

(** ** Cutting the array into items *)

Section GetlineFacts.

Lemma comma_test c : (nat_of_ascii c =? 44)%nat = Ascii.eqb c ",".
Proof. destruct c as [[] [] [] [] [] [] [] []]; reflexivity. Qed.

Lemma getline_from_lacks stream : forall item,
  lacks "," item = true ->
  Forall (fun i => lacks "," i = true) (Reader.getline_from stream item).
Proof.
  induction stream as [|c rest IH]; intros item Hitem; simpl.
  - destruct item; [constructor|by repeat constructor].
  - rewrite comma_test. destruct (Ascii.eqb c ",") eqn:E.
    + constructor; [done|]. by apply IH.
    + apply IH. unfold lacks in *. rewrite string_forall_app, Hitem. simpl.
      by rewrite E.
Qed.

(** A text without comma is extracted whole into the item in progress. *)
Lemma getline_from_run (a rest item : string) :
  lacks "," a = true ->
  Reader.getline_from (a ++ rest) item = Reader.getline_from rest (item ++ a).
Proof.
  revert item. induction a as [|c a IH]; intros item Ha.
  - by rewrite append_nil, append_empty_r.
  - rewrite append_cons. cbn [Reader.getline_from]. rewrite comma_test.
    unfold lacks in Ha. simpl in Ha. apply andb_true_iff in Ha as [Hc Ha].
    apply negb_true_iff in Hc. rewrite Hc, (IH _ Ha).
    by rewrite append_assoc.
Qed.

Lemma getline_from_item (a rest : string) :
  lacks "," a = true ->
  Reader.getline_from (a ++ String "," rest) ""
  = a :: Reader.getline_from rest "".
Proof.
  intros Ha. rewrite (getline_from_run a _ "" Ha), append_nil. done.
Qed.

Lemma getline_from_last (a : string) :
  lacks "," a = true -> a <> "" ->
  Reader.getline_from a "" = [a].
Proof.
  intros Ha Hne. rewrite <- (append_empty_r a) at 1.
  rewrite (getline_from_run a "" "" Ha), append_nil. simpl. by destruct a.
Qed.

End GetlineFacts.

(** X25. No item that the [getline] loop of the loaders yields holds a
    comma. *)
Theorem getline_items_lack_commas (arrayContent : string) :
  Forall (fun item => lacks "," item = true) (Reader.getline_all arrayContent).
Proof. by apply getline_from_lacks. Qed.

(** X26. Items without comma, written with commas between them, are read
    back as they were, provided the last one is not empty; and an array
    without text yields no item. *)
Theorem getline_round_trip (items : list string) :
  Forall (fun item => lacks "," item = true) items ->
  last items <> Some "" ->
  Reader.getline_all (join_commas items) = items.
Proof.
  unfold Reader.getline_all.
  induction items as [|item rest IH]; intros Hall Hlast; [done|].
  apply Forall_cons in Hall as [Hitem Hrest].
  destruct rest as [|item' rest'].
  - simpl. apply getline_from_last; [done|]. intros ->. by apply Hlast.
  - change (join_commas (item :: item' :: rest'))
      with (item ++ String "," (join_commas (item' :: rest'))).
    rewrite getline_from_item by done. f_equal. by apply IH.
Qed.

Lemma getline_round_trip_witness :
  Forall (fun item => lacks "," item = true) [" Cat"; ""; "dog "] /\
  last [" Cat"; ""; "dog "] <> Some "" /\
  Reader.getline_all (join_commas [" Cat"; ""; "dog "]) = [" Cat"; ""; "dog "].
Proof.
  assert (Forall (fun item => lacks "," item = true) [" Cat"; ""; "dog "])
    as H1 by (repeat constructor).
  assert (last [" Cat"; ""; "dog "] <> Some "") as H2 by discriminate.
  split; [exact H1|]. split; [exact H2|].
  exact (getline_round_trip [" Cat"; ""; "dog "] H1 H2).
Defined.

(** X27. When the dictionary file cannot be opened, the first [Initialize]
    still creates the instance, and leaves the dictionary empty: every
    [checkUserWord] and every [CheckPrefixHasMinimumWords] is false, and
    [GeneratePrefixFromRandomWord] returns the empty string without a
    draw. *)
Theorem initialize_without_dictionary
    (disk : Disk) (wordFilename prefixFilename nsfwFilename : string)
    (w0 w : World) :
  instance w0 = None ->
  disk wordFilename = None ->
  Singleton.Initialize (Reader.files_of disk) wordFilename prefixFilename
    nsfwFilename w0 = Some w ->
  exists lex,
    instance w = Some lex /\
    TrieOps.getAllWords (trie lex) = ∅ /\
    dictionaryWords (assets w) = dictionaryWords (assets w0) /\
    (forall raw, Lex.checkUserWord lex raw = false) /\
    (forall p k, Lex.CheckPrefixHasMinimumWords lex p k = false) /\
    (forall length Randomize draws,
       Lex.GeneratePrefixFromRandomWord lex length Randomize draws
       = Returned "" draws).
Proof.
  intros H0 Hd Hinit. rewrite Initialize_first_spec in Hinit by done.
  assert (Reader.files_of disk wordFilename "words" = None) as Hf
    by (unfold Reader.files_of; by rewrite Hd).
  rewrite Hf in Hinit. injection Hinit as <-. eexists. split; [done|].
  simpl. split; [done|]. split; [done|]. split; [|split].
  - intros raw. unfold Lex.checkUserWord, TrieOps.search. simpl.
    by rewrite search_new_node.
  - intros p k. unfold Lex.CheckPrefixHasMinimumWords. simpl.
    by rewrite decide_True.
  - intros length Randomize draws. unfold Lex.GeneratePrefixFromRandomWord.
    simpl. by rewrite decide_True.
Qed.

Lemma initialize_without_dictionary_witness :
  instance Singleton.start = None /\
  (fun _ : string => @None string) "Dictionary.json" = None /\
  exists w lex,
    Singleton.Initialize (Reader.files_of (fun _ => None)) "Dictionary.json"
      "Prefixes.json" "NSFW.json" Singleton.start = Some w /\
    instance w = Some lex /\
    TrieOps.getAllWords (trie lex) = ∅.
Proof.
  assert (instance Singleton.start = None) as H0 by reflexivity.
  assert ((fun _ : string => @None string) "Dictionary.json" = None) as H1
    by reflexivity.
  assert (Singleton.Initialize (Reader.files_of (fun _ => None))
            "Dictionary.json" "Prefixes.json" "NSFW.json" Singleton.start
          = Some (MkWorld (Some Lex.make) (MkAssets [] [] []))) as H2
    by reflexivity.
  split; [exact H0|]. split; [exact H1|].
  destruct (initialize_without_dictionary (fun _ => None) "Dictionary.json"
              "Prefixes.json" "NSFW.json" Singleton.start _ H0 H1 H2)
    as (lex & Hl & He & _).
  exists (MkWorld (Some Lex.make) (MkAssets [] [] [])), lex.
  split; [exact H2|]. split; [exact Hl|exact He].
Defined.

(** ** The undo and redo history *)

Section HistoryFacts.

Context {Store : Type}.

Implicit Types (m : History.UndoRedoManager Store)
               (a : History.IUndoAction Store)
               (stack : list (History.IUndoAction Store)).

Lemma limit_small stack :
  (List.length stack <= History.MAX_UNDO_REDO)%nat ->
  History.limit stack = stack.
Proof.
  intros H. unfold History.limit.
  by destruct (Nat.ltb_spec History.MAX_UNDO_REDO (List.length stack)); [lia|].
Qed.

Lemma limit_length stack :
  (List.length stack <= S History.MAX_UNDO_REDO)%nat ->
  (List.length (History.limit stack) <= History.MAX_UNDO_REDO)%nat.
Proof.
  intros H. unfold History.limit.
  destruct (Nat.ltb_spec History.MAX_UNDO_REDO (List.length stack)); [|done].
  destruct stack; simpl in *; lia.
Qed.

Lemma last_split stack a :
  last stack = Some a -> exists front, stack = (front ++ [a])%list.
Proof.
  intros H. destruct stack as [|x stack] using rev_ind; [done|].
  rewrite last_snoc in H. injection H as ->. by exists stack.
Qed.

Lemma push_within a m : History.within_limit m -> History.within_limit (History.push a m).
Proof.
  intros [Hu _]. split; simpl; [|unfold History.MAX_UNDO_REDO; lia].
  apply limit_length. rewrite length_app. simpl. lia.
Qed.

Lemma Undo_within m (s : Store) :
  History.within_limit m -> History.within_limit (History.Undo m s).1.
Proof.
  intros [Hu Hr]. unfold History.Undo.
  destruct (last (History.undoStack m)) as [a|] eqn:E; [|done].
  destruct (last_split _ _ E) as (front & Ef). rewrite Ef in *.
  rewrite removelast_last. rewrite length_app in Hu. simpl in Hu.
  split; simpl; [lia|]. apply limit_length. rewrite length_app. simpl. lia.
Qed.

Lemma Redo_within m (s : Store) :
  History.within_limit m -> History.within_limit (History.Redo m s).1.
Proof.
  intros [Hu Hr]. unfold History.Redo.
  destruct (last (History.redoStack m)) as [a|] eqn:E; [|done].
  destruct (last_split _ _ E) as (front & Ef). rewrite Ef in *.
  rewrite removelast_last. rewrite length_app in Hr. simpl in Hr.
  split; simpl; [|lia]. apply limit_length. rewrite length_app. simpl. lia.
Qed.

Lemma step_within (ms : History.UndoRedoManager Store * Store) c :
  History.within_limit ms.1 -> History.within_limit (History.step ms c).1.
Proof.
  intros H. destruct c; simpl.
  - by apply push_within.
  - by apply Undo_within.
  - by apply Redo_within.
  - split; simpl; unfold History.MAX_UNDO_REDO; lia.
Qed.

End HistoryFacts.

(** X28. Whatever calls the editor makes on a fresh manager, in whatever
    order, neither the undo stack nor the redo stack ever holds more than
    [MAX_UNDO_REDO] = 100 actions. *)
Theorem history_never_exceeds_limit
    {Store : Type} (calls : list (History.call Store)) (s : Store) :
  (List.length (History.undoStack (History.run calls (History.fresh, s)).1)
     <= 100)%nat /\
  (List.length (History.redoStack (History.run calls (History.fresh, s)).1)
     <= 100)%nat.
Proof.
  change (History.within_limit (History.run calls (History.fresh, s)).1).
  assert (History.within_limit (@History.fresh Store, s).1) as H
    by (split; simpl; unfold History.MAX_UNDO_REDO; lia).
  revert H. generalize (@History.fresh Store, s).
  unfold History.run. induction calls as [|c calls IH]; intros ms H; [done|].
  simpl. by apply IH, step_within.
Qed.

(** X29. When the newest entry of the undo stack is an [UndoAction] on a
    variable and the redo stack is not full, [Undo] writes the previous
    value to that variable alone and moves the entry to the redo stack,
    and [Redo] right after it writes the new value and gives back the
    manager as it was. *)
Theorem undo_then_redo_restores
    {T : Type} (m : History.UndoRedoManager (gmap nat T))
    (front : list (History.IUndoAction (gmap nat T)))
    (a : History.UndoAction T) (s : gmap nat T) :
  History.undoStack m = (front ++ [History.as_action a])%list ->
  (List.length (History.undoStack m) <= 100)%nat ->
  (List.length (History.redoStack m) < 100)%nat ->
  History.Undo m s
  = (History.MkManager front
       (History.redoStack m ++ [History.as_action a])%list,
     <[History.mVar a := History.mPrevValue a]> s) /\
  History.Redo (History.Undo m s).1 (History.Undo m s).2
  = (m, <[History.mVar a := History.mNewValue a]> s).
Proof.
  intros Hu Hlu Hlr.
  assert (History.Undo m s
          = (History.MkManager front
               (History.redoStack m ++ [History.as_action a])%list,
             <[History.mVar a := History.mPrevValue a]> s)) as E.
  { unfold History.Undo. rewrite Hu, last_snoc, removelast_last.
    rewrite limit_small; [done|].
    rewrite length_app. unfold History.MAX_UNDO_REDO. simpl. lia. }
  split; [exact E|]. rewrite E. unfold History.Redo. simpl.
  rewrite last_snoc, removelast_last, <- Hu, limit_small by done.
  unfold History.as_action. simpl. rewrite insert_insert_eq. by destruct m.
Qed.

Lemma undo_then_redo_restores_witness :
  History.undoStack (History.PushUndo 1 "Transform" "x" 0 5%Z 7%Z History.fresh)
  = ([] ++ [History.as_action
              (History.MkUndoAction Z 1 "Transform" "x" 0 5%Z 7%Z)])%list /\
  (List.length
     (History.undoStack
        (History.PushUndo 1 "Transform" "x" 0 5%Z 7%Z History.fresh))
   <= 100)%nat /\
  (List.length
     (History.redoStack
        (History.PushUndo 1 "Transform" "x" 0 5%Z 7%Z History.fresh))
   < 100)%nat /\
  (History.Undo (History.PushUndo 1 "Transform" "x" 0 5%Z 7%Z History.fresh)
     {[ 0%nat := 7%Z ]}).2
  = <[ 0%nat := 5%Z ]> {[ 0%nat := 7%Z ]}.
Proof.
  assert (History.undoStack
            (History.PushUndo 1 "Transform" "x" 0 5%Z 7%Z History.fresh)
          = ([] ++ [History.as_action
                      (History.MkUndoAction Z 1 "Transform" "x" 0 5%Z 7%Z)])%list)
    as H1 by reflexivity.
  assert (List.length
            (History.undoStack
               (History.PushUndo 1 "Transform" "x" 0 5%Z 7%Z History.fresh))
          <= 100)%nat as H2 by (simpl; lia).
  assert (List.length
            (History.redoStack
               (History.PushUndo 1 "Transform" "x" 0 5%Z 7%Z History.fresh))
          < 100)%nat as H3 by (simpl; lia).
  split; [exact H1|]. split; [exact H2|]. split; [exact H3|].
  exact (f_equal snd
           (proj1 (undo_then_redo_restores _ [] _ {[ 0%nat := 7%Z ]} H1 H2 H3))).
Defined.

(** X30. Recording a change when the undo stack is full, at 100 entries,
    drops the oldest entry and keeps the stack at 100; recording a change
    always empties the redo stack. *)
Theorem push_on_full_history_drops_oldest
    {Store : Type} (a : History.IUndoAction Store)
    (m : History.UndoRedoManager Store) :
  List.length (History.undoStack m) = 100%nat ->
  History.undoStack (History.push a m)
  = (tail (History.undoStack m) ++ [a])%list /\
  List.length (History.undoStack (History.push a m)) = 100%nat /\
  History.CanRedo (History.push a m) = false.
Proof.
  intros Hl. unfold History.push, History.limit. simpl.
  rewrite length_app, Hl. simpl.
  destruct (History.undoStack m) as [|x u]; [done|]. simpl in *.
  split; [done|]. split; [|done]. rewrite length_app. simpl. lia.
Qed.

Lemma push_on_full_history_drops_oldest_witness :
  List.length
    (History.undoStack
       (History.MkManager
          (replicate 100 (@History.MkAction nat S pred)) [])) = 100%nat /\
  List.length
    (History.undoStack
       (History.push (History.MkAction pred S)
          (History.MkManager
             (replicate 100 (@History.MkAction nat S pred)) []))) = 100%nat.
Proof.
  assert (List.length
            (History.undoStack
               (History.MkManager
                  (replicate 100 (@History.MkAction nat S pred)) []))
          = 100%nat) as H by reflexivity.
  split; [exact H|].
  exact (proj1 (proj2 (push_on_full_history_drops_oldest
                         (History.MkAction pred S) _ H))).
Defined.
